(** * graphAttack: transformation operations

    A shallow embedding of [graphAttack/operations/transformationOperations.py]
    (the classes [FlattenFeaturesOperation], [ReshapeFeaturesOperation] and
    [SliceOperation]) together with the part of NumPy they call:
    [np.zeros], [np.ones], [ndarray.reshape], in-place addition [+=] with
    broadcasting, and basic indexing [a[idx]] / [a[idx] = v] with integers,
    slices, [Ellipsis] and [newaxis].

    Arrays are kept in C (row-major) order: a shape and the flat list of the
    elements.  Python integers are [Z]; list positions are [nat].  Python
    exceptions are values of [exception], carried by the [result] monad.
    The element type is a parameter with a zero, a one and an addition
    ([Scalar]); NumPy's float64 is the instance on Rocq's primitive binary64
    floats, and the integers are the instance of exact arithmetic.  Index
    expressions with integer or boolean arrays (advanced indexing) are
    outside the model. *)

From stdpp Require Import base option list numbers.
From Stdlib Require Import Floats.

Local Open Scope Z_scope.

(** ** Exceptions and the result monad *)

(** The exception classes that the modelled code can raise.  [ShapeError] is
    the class named by the specification; no statement of the module raises
    it. *)
Inductive exception : Set :=
  | ValueError
  | IndexError
  | TypeError
  | AttributeError
  | ShapeError.

Inductive result (A : Type) : Type :=
  | Ok (a : A)
  | Raise (e : exception).
Arguments Ok {A} a.
Arguments Raise {A} e.

#[global] Instance result_ret : MRet result := fun _ a => Ok a.
#[global] Instance result_bind : MBind result := fun _ _ f m =>
  match m with
  | Ok a => f a
  | Raise e => Raise e
  end.
#[global] Instance result_fmap : FMap result := fun _ _ f m =>
  match m with
  | Ok a => Ok (f a)
  | Raise e => Raise e
  end.

(** A Python [for x in l: acc = f(acc, x)] whose body may raise. *)
Fixpoint for_each {A B : Type} (f : B -> A -> result B) (l : list A) (acc : B)
  : result B :=
  match l with
  | [] => Ok acc
  | x :: l' => acc' ← f acc x; for_each f l' acc'
  end.

(** [t[i]] on a tuple with a non-negative position. *)
Definition tuple_get (t : list Z) (i : nat) : result Z :=
  match t !! i with
  | Some d => Ok d
  | None => Raise IndexError
  end.

(** ** Array elements *)

(** The element type of the arrays with the three things the module needs
    from it: the value written by [np.zeros], the one written by [np.ones]
    and the addition of [+=]. *)
Class Scalar (A : Type) : Type := {
  zero : A;
  one : A;
  add : A -> A -> A
}.

(** Exact arithmetic: zero is a left identity of the addition. *)
Class ExactScalar (A : Type) `{Scalar A} : Prop := {
  add_zero_l : forall x : A, add zero x = x
}.

#[global] Instance Z_scalar : Scalar Z :=
  {| zero := 0; one := 1; add := Z.add |}.

(** What the accumulation from zeros needs of the arithmetic: zero plus
    zero is zero, and a sum that was started from zero does not change when
    the term added to it is itself started from zero.  Both hold in exact
    arithmetic, and in IEEE 754 arithmetic, where [0 + x] and [x] differ for
    the negative zero only. *)
Class ZeroSeed (A : Type) `{Scalar A} : Prop := {
  add_zero_zero : add zero zero = zero;
  add_seeded : forall x y : A,
    add (add zero x) (add zero y) = add (add zero x) y
}.

#[global] Instance exact_zero_seed (A : Type) `{ExactScalar A} : ZeroSeed A :=
  {| add_zero_zero := add_zero_l zero;
     add_seeded := fun x y => f_equal (add (add zero x)) (add_zero_l y) |}.

#[global] Instance Z_exact : ExactScalar Z :=
  {| add_zero_l := Z.add_0_l |}.

(** NumPy's default dtype, IEEE 754 binary64. *)
#[global] Instance float64_scalar : Scalar float :=
  {| zero := 0%float; one := 1%float; add := PrimFloat.add |}.

(** ** NumPy arrays *)

(** The number of elements of an array of shape [s]. *)
Definition prod_shape (s : list Z) : Z := foldr Z.mul 1 s.

Definition valid_shape (s : list Z) : bool := forallb (fun d => 0 <=? d) s.

Section numpy.
Context {A : Type} `{Scalar A}.

Record ndarray : Type := {
  nd_shape : list Z;
  nd_data : list A
}.

(** The invariant of every array NumPy builds. *)
Definition nd_wf (a : ndarray) : Prop :=
  valid_shape (nd_shape a) = true /\
  length (nd_data a) = Z.to_nat (prod_shape (nd_shape a)).

Definition np_full (x : A) (s : list Z) : result ndarray :=
  if valid_shape s
  then Ok {| nd_shape := s; nd_data := replicate (Z.to_nat (prod_shape s)) x |}
  else Raise ValueError.

(** [np.zeros(s)] and [np.ones(s)]; a negative dimension is a [ValueError]. *)
Definition np_zeros (s : list Z) : result ndarray := np_full zero s.
Definition np_ones (s : list Z) : result ndarray := np_full one s.

(** [a.reshape(newshape)].  A negative entry of [newshape] stands for the
    one dimension to infer; the element count must be kept. *)
Definition np_reshape (a : ndarray) (newshape : list Z) : result ndarray :=
  let s_original := prod_shape (nd_shape a) in
  let s_known := prod_shape (filter (fun d => 0 <= d) newshape) in
  match length (filter (fun d => d < 0) newshape) with
  | O =>
      if s_original =? s_known
      then Ok {| nd_shape := newshape; nd_data := nd_data a |}
      else Raise ValueError
  | S O =>
      if (s_known =? 0) || negb (s_original mod s_known =? 0)
      then Raise ValueError
      else Ok {| nd_shape :=
                   map (fun d => if d <? 0 then s_original / s_known else d)
                       newshape;
                 nd_data := nd_data a |}
  | _ => Raise ValueError
  end.

(** *** Broadcasting *)

(** [chunks n k d]: the first [k] consecutive blocks of [n] elements. *)
Fixpoint chunks (n k : nat) (d : list A) : list (list A) :=
  match k with
  | O => []
  | S k' => take n d :: chunks n k' (drop n d)
  end.

(** Shapes of equal rank: every source dimension is the target's or 1. *)
Fixpoint broadcastable (tgt src : list Z) : bool :=
  match tgt, src with
  | [], [] => true
  | t :: ts, s :: ss => ((s =? t) || (s =? 1)) && broadcastable ts ss
  | _, _ => false
  end.

(** The elements of a source of shape [src] read at every position of the
    target shape [tgt] (equal ranks, [broadcastable tgt src]). *)
Fixpoint broadcast_data (tgt src : list Z) (d : list A) : list A :=
  match tgt, src with
  | t :: ts, s :: ss =>
      if s =? t
      then mjoin (map (broadcast_data ts ss)
                      (chunks (Z.to_nat (prod_shape ss)) (Z.to_nat t) d))
      else mjoin (replicate (Z.to_nat t) (broadcast_data ts ss d))
  | _, _ => d
  end.

(** Missing leading dimensions of the source count as 1. *)
Definition pad_shape (rank : nat) (s : list Z) : list Z :=
  replicate (rank - length s)%nat 1 ++ s.

Definition broadcast_to (tgt : list Z) (b : ndarray) : result (list A) :=
  if (length (nd_shape b) <=? length tgt)%nat
     && broadcastable tgt (pad_shape (length tgt) (nd_shape b))
  then Ok (broadcast_data tgt (pad_shape (length tgt) (nd_shape b)) (nd_data b))
  else Raise ValueError.

(** [a += b]: [b] is broadcast to the shape of [a], which is kept. *)
Definition np_iadd (a b : ndarray) : result ndarray :=
  bd ← broadcast_to (nd_shape a) b;
  Ok {| nd_shape := nd_shape a; nd_data := zip_with add (nd_data a) bd |}.

(** Assignment strips unit dimensions from the left of a value whose rank
    exceeds that of the destination, then broadcasts. *)
Fixpoint strip_leading_ones (rank : nat) (s : list Z) : list Z :=
  match s with
  | d :: s' =>
      if (rank <? length s)%nat && (d =? 1)
      then strip_leading_ones rank s'
      else s
  | [] => []
  end.

Definition broadcast_assign (tgt : list Z) (v : ndarray) : result (list A) :=
  broadcast_to tgt
    {| nd_shape := strip_leading_ones (length tgt) (nd_shape v);
       nd_data := nd_data v |}.

End numpy.

Arguments ndarray A : clear implicits.

(** ** Basic indexing *)

(** One item of an index expression such as [np.index_exp[0, :]]: an
    integer, [slice(start, stop, step)] with [None] for an omitted part,
    [Ellipsis] or [np.newaxis]. *)
Inductive index : Set :=
  | Int (i : Z)
  | Slice (start stop step : option Z)
  | Ellipsis
  | NewAxis.

(** [:] *)
Definition full_slice : index := Slice None None None.

(** An integer index on an axis of length [d]: negative values count from
    the end, anything outside the axis is an [IndexError]. *)
Definition adjust_index (i d : Z) : result Z :=
  let i' := if i <? 0 then i + d else i in
  if (0 <=? i') && (i' <? d) then Ok i' else Raise IndexError.

(** Python's clipping of one slice bound for an axis of length [len];
    [lo] and [hi] are the values taken below 0 and from [len] on. *)
Definition adjust_bound (b len lo hi : Z) : Z :=
  if b <? 0
  then (if b + len <? 0 then lo else b + len)
  else (if len <=? b then hi else b).

(** [slice(start, stop, step).indices(len)] followed by the enumeration of
    the selected positions of the axis. *)
Definition slice_indices (start stop step : option Z) (len : Z)
  : result (list Z) :=
  let step' := default 1 step in
  if step' =? 0 then Raise ValueError
  else
    let lo := if step' <? 0 then -1 else 0 in
    let hi := if step' <? 0 then len - 1 else len in
    let start' := match start with
                  | Some b => adjust_bound b len lo hi
                  | None => if step' <? 0 then len - 1 else 0
                  end in
    let stop' := match stop with
                 | Some b => adjust_bound b len lo hi
                 | None => if step' <? 0 then -1 else len
                 end in
    let slicelength :=
      if step' <? 0
      then (if stop' <? start' then (start' - stop' - 1) / (- step') + 1 else 0)
      else (if start' <? stop' then (stop' - start' - 1) / step' + 1 else 0) in
    Ok (map (fun k => start' + Z.of_nat k * step')
            (seq 0 (Z.to_nat slicelength))).

Definition consumes_axis (i : index) : bool :=
  match i with
  | Int _ | Slice _ _ _ => true
  | Ellipsis | NewAxis => false
  end.

Definition is_ellipsis (i : index) : bool :=
  match i with
  | Ellipsis => true
  | _ => false
  end.

(** The index expression with its [Ellipsis] replaced by full slices, or
    completed with trailing full slices, so that it names every axis of an
    array of rank [ndim]. *)
Definition expand_index (ndim : nat) (idx : list index) : result (list index) :=
  let n_ellipsis := length (List.filter is_ellipsis idx) in
  let used := length (List.filter consumes_axis idx) in
  if (1 <? n_ellipsis)%nat then Raise IndexError
  else if (ndim <? used)%nat then Raise IndexError
  else
    let fill := replicate (ndim - used)%nat full_slice in
    if (n_ellipsis =? 0)%nat then Ok (idx ++ fill)
    else Ok (flat_map (fun i => if is_ellipsis i then fill else [i]) idx).

(** The view selected by an expanded index expression on an array of shape
    [dims]: the shape of the view and, in the view's own row-major order,
    the flat position in the indexed array of each of its elements. *)
Fixpoint index_view (dims : list Z) (idx : list index)
  : result (list Z * list Z) :=
  match idx with
  | [] => Ok ([], [0])
  | NewAxis :: idx' =>
      '(sh, offs) ← index_view dims idx';
      Ok (1 :: sh, offs)
  | Ellipsis :: idx' => index_view dims idx'
  | Int i :: idx' =>
      match dims with
      | d :: ds =>
          i' ← adjust_index i d;
          '(sh, offs) ← index_view ds idx';
          Ok (sh, map (fun o => i' * prod_shape ds + o) offs)
      | [] => Raise IndexError
      end
  | Slice start stop step :: idx' =>
      match dims with
      | d :: ds =>
          sel ← slice_indices start stop step d;
          '(sh, offs) ← index_view ds idx';
          Ok (Z.of_nat (length sel) :: sh,
              flat_map (fun i => map (fun o => i * prod_shape ds + o) offs) sel)
      | [] => Raise IndexError
      end
  end.

(** Shape and flat positions selected by [idx] on an array of shape [dims]. *)
Definition select (dims : list Z) (idx : list index) : result (list Z * list Z) :=
  full ← expand_index (length dims) idx;
  index_view dims full.

Section indexing.
Context {A : Type} `{Scalar A}.

Definition read (d : list A) (o : Z) : A := default zero (d !! Z.to_nat o).

(** [a[idx]] *)
Definition np_getitem (a : ndarray A) (idx : list index) : result (ndarray A) :=
  '(sh, offs) ← select (nd_shape a) idx;
  Ok {| nd_shape := sh; nd_data := map (read (nd_data a)) offs |}.

Definition write (d : list A) (ox : Z * A) : list A :=
  <[Z.to_nat (fst ox) := snd ox]> d.

(** [a[idx] = v] *)
Definition np_setitem (a : ndarray A) (idx : list index) (v : ndarray A)
  : result (ndarray A) :=
  '(sh, offs) ← select (nd_shape a) idx;
  vals ← broadcast_assign sh v;
  Ok {| nd_shape := nd_shape a;
        nd_data := foldl write (nd_data a) (zip offs vals) |}.

End indexing.

(** ** Operation nodes *)

Section operations.
Context {A : Type} `{Scalar A}.

(** What the module reads of the operation feeding a node ([self.inputA]):
    its [shape]; [result] is the value cached by the forward pass. *)
Record Operation : Type := {
  op_shape : list Z;
  op_result : option (ndarray A)
}.

(** A member of [self.outputs], seen through the one call the module makes
    on it: [out.getGradient(self)]. *)
Record Consumer : Type := {
  getGradient : ndarray A
}.

End operations.

Arguments Operation A : clear implicits.
Arguments Consumer A : clear implicits.

(** The [exampleShape] argument of [ReshapeFeaturesOperation]: a tuple, or
    an integer such as the default [0]. *)
Inductive shape_arg : Set :=
  | ShapeTuple (s : list Z)
  | ShapeInt (n : Z).

(** [class FlattenFeaturesOperation(SingleInputOperation)], lines 8-78 of
    the source. *)
Module FlattenFeaturesOperation.
Section defs.
Context {A : Type} `{Scalar A}.

(** The attributes of [self] that the methods read or write. *)
Record t : Type := {
  inputA : Operation A;
  nExamples : Z;
  shape : list Z;
  endNode : bool;
  outputs : list (Consumer A)
}.

(** [self.nExamples = n; self.shape = s] *)
Definition set_shape (self : t) (n : Z) (s : list Z) : t :=
  {| inputA := inputA self; nExamples := n; shape := s;
     endNode := endNode self; outputs := outputs self |}.

(** [setShape], lines 30-41: the node after the call, or the exception. *)
Definition setShape (self : t) : result t :=
  let inpShape := op_shape (inputA self) in
  let inpShapeSize := length inpShape in
  if (2 <=? inpShapeSize)%nat then
    n ← tuple_get inpShape 0;
    numFeatures ←
      for_each (fun numFeatures index =>
                  d ← tuple_get inpShape (index + 1);
                  Ok (numFeatures * d))
               (seq 0 (inpShapeSize - 1)) 1;
    Ok (set_shape self n [n; numFeatures])
  else
    d ← tuple_get inpShape 0;
    Ok (set_shape self 1 [1; d]).

(** [perform], lines 43-56. *)
Definition perform (self : t) (a : ndarray A) : result (ndarray A) :=
  np_reshape a (shape self).

(** [performGradient], lines 58-78; the argument [input] is not used. *)
Definition performGradient (self : t) : result (ndarray A) :=
  if endNode self then np_ones (op_shape (inputA self))
  else
    grad ← np_zeros (op_shape (inputA self));
    for_each (fun grad out =>
                g ← np_reshape (getGradient out) (op_shape (inputA self));
                np_iadd grad g)
             (outputs self) grad.

End defs.
Arguments t A : clear implicits.
End FlattenFeaturesOperation.

(** [class ReshapeFeaturesOperation(SingleInputOperation)], lines 81-157. *)
Module ReshapeFeaturesOperation.
Section defs.
Context {A : Type} `{Scalar A}.

Record t : Type := {
  inputA : Operation A;
  exampleShape : shape_arg;
  nExamples : Z;
  shape : list Z;
  endNode : bool;
  outputs : list (Consumer A)
}.

(** [self.nExamples = n; self.shape = s] *)
Definition set_shape (self : t) (n : Z) (s : list Z) : t :=
  {| inputA := inputA self; exampleShape := exampleShape self;
     nExamples := n; shape := s;
     endNode := endNode self; outputs := outputs self |}.

(** [(n, ) + self.exampleShape]: tuple concatenation, a [TypeError] when
    [exampleShape] is not a tuple. *)
Definition tuple_add (l : list Z) (r : shape_arg) : result (list Z) :=
  match r with
  | ShapeTuple s => Ok (l ++ s)
  | ShapeInt _ => Raise TypeError
  end.

(** [setShape], lines 112-120. *)
Definition setShape (self : t) : result t :=
  let inpShape := op_shape (inputA self) in
  let inpShapeSize := length inpShape in
  if (2 <=? inpShapeSize)%nat then
    n ← tuple_get inpShape 0;
    s ← tuple_add [n] (exampleShape self);
    Ok (set_shape self n s)
  else
    s ← tuple_add [1] (exampleShape self);
    Ok (set_shape self 1 s).

(** [perform], lines 122-135. *)
Definition perform (self : t) (a : ndarray A) : result (ndarray A) :=
  np_reshape a (shape self).

(** [performGradient], lines 137-157. *)
Definition performGradient (self : t) : result (ndarray A) :=
  if endNode self then np_ones (op_shape (inputA self))
  else
    grad ← np_zeros (op_shape (inputA self));
    for_each (fun grad out =>
                g ← np_reshape (getGradient out) (op_shape (inputA self));
                np_iadd grad g)
             (outputs self) grad.

End defs.
Arguments t A : clear implicits.
End ReshapeFeaturesOperation.

(** [class SliceOperation(SingleInputOperation)], lines 160-239.
    [indexExp] is the tuple that [np.index_exp] builds. *)
Module SliceOperation.
Section defs.
Context {A : Type} `{Scalar A}.

Record t : Type := {
  inputA : Operation A;
  indexExp : list index;
  shape : list Z;
  endNode : bool;
  outputs : list (Consumer A)
}.

(** [self.shape = s] *)
Definition set_shape (self : t) (s : list Z) : t :=
  {| inputA := inputA self; indexExp := indexExp self; shape := s;
     endNode := endNode self; outputs := outputs self |}.

(** [setShape], lines 197-201. *)
Definition setShape (self : t) : result t :=
  testMat ← np_zeros (op_shape (inputA self));
  result ← np_getitem testMat (indexExp self);
  Ok (set_shape self (nd_shape result)).

(** [perform], lines 203-216. *)
Definition perform (self : t) (a : ndarray A) : result (ndarray A) :=
  np_getitem a (indexExp self).

(** [performGradient], lines 218-239. *)
Definition performGradient (self : t) : result (ndarray A) :=
  if endNode self then np_ones (op_shape (inputA self))
  else
    gradGather ← np_zeros (shape self);
    gradGather ←
      for_each (fun gradGather out => np_iadd gradGather (getGradient out))
               (outputs self) gradGather;
    grad ← np_zeros (op_shape (inputA self));
    np_setitem grad (indexExp self) gradGather.

End defs.
Arguments t A : clear implicits.
End SliceOperation.

(** ** Construction *)

Section construction.
Context {A : Type} `{Scalar A}.

(** A node on which no method has run yet: it has its input and, for the
    two classes that take one, its construction-time parameter; it has no
    consumer, so [endNode] holds; [shape] and [nExamples], which do not
    exist before [setShape], hold placeholders. *)
Definition flatten_new (inputA : Operation A) : FlattenFeaturesOperation.t A :=
  {| FlattenFeaturesOperation.inputA := inputA;
     FlattenFeaturesOperation.nExamples := 0;
     FlattenFeaturesOperation.shape := [];
     FlattenFeaturesOperation.endNode := true;
     FlattenFeaturesOperation.outputs := [] |}.

Definition reshape_new (inputA : Operation A) (exampleShape : shape_arg)
  : ReshapeFeaturesOperation.t A :=
  {| ReshapeFeaturesOperation.inputA := inputA;
     ReshapeFeaturesOperation.exampleShape := exampleShape;
     ReshapeFeaturesOperation.nExamples := 0;
     ReshapeFeaturesOperation.shape := [];
     ReshapeFeaturesOperation.endNode := true;
     ReshapeFeaturesOperation.outputs := [] |}.

Definition slice_new (inputA : Operation A) (indexExp : list index)
  : SliceOperation.t A :=
  {| SliceOperation.inputA := inputA;
     SliceOperation.indexExp := indexExp;
     SliceOperation.shape := [];
     SliceOperation.endNode := true;
     SliceOperation.outputs := [] |}.

(** Modelled from the spec: [SingleInputOperation.__init__] of
    [coreOperation], which is not among the sources.  All that is taken from
    the specification is that it stores the input operation and calls
    [setShape], once; [indexExp] is the attribute that
    [SliceOperation.__init__] has stored by then.  With no input operation
    (the default [inputA=None]) the first line of [setShape], which reads
    [self.inputA.shape], raises [AttributeError]. *)
Definition slice_super_init (indexExp : list index)
    (inputA : option (Operation A)) : result (SliceOperation.t A) :=
  match inputA with
  | None => Raise AttributeError
  | Some inputA => SliceOperation.setShape (slice_new inputA indexExp)
  end.

(** [SliceOperation.__init__], lines 190-195, with its two optional
    arguments: a missing index expression is refused before anything else
    happens; otherwise the index expression is stored and the inherited
    constructor runs on [inputA]. *)
Definition slice_init (inputA : option (Operation A))
    (indexExp : option (list index)) : result (SliceOperation.t A) :=
  match indexExp with
  | None => Raise ValueError
  | Some indexExp => slice_super_init indexExp inputA
  end.

End construction.

(** ** Notions used by the statements *)

Section notions.
Context {A : Type} `{Scalar A}.

(** A node seen as the input operation of the next one. *)
Definition flatten_as_input (self : FlattenFeaturesOperation.t A)
  : Operation A :=
  {| op_shape := FlattenFeaturesOperation.shape self; op_result := None |}.

(** The running elementwise sum [acc += g] over the consumers' gradients,
    in the order of [outputs]. *)
Definition accumulate (acc : list A) (outs : list (Consumer A)) : list A :=
  foldl (fun d out => zip_with add d (nd_data (getGradient out))) acc outs.

(** What a consumer hands back to a reshaping node whose input has shape
    [inShape]: a well-formed array with as many elements. *)
Definition fits (inShape : list Z) (out : Consumer A) : Prop :=
  nd_wf (getGradient out) /\
  prod_shape (nd_shape (getGradient out)) = prod_shape inShape.

(** What a consumer hands back to a node of output shape [sh]: a
    well-formed array of that shape. *)
Definition shaped (sh : list Z) (out : Consumer A) : Prop :=
  nd_wf (getGradient out) /\ nd_shape (getGradient out) = sh.

(** [vals] written into [n] zeros at the flat positions [offs]. *)
Definition scatter (n : nat) (offs : list Z) (vals : list A) : list A :=
  foldl write (replicate n zero) (zip offs vals).

(** The elementwise sum of a list of flat arrays of [n] elements. *)
Definition sum_arrays (n : nat) (cs : list (list A)) : list A :=
  foldl (zip_with add) (replicate n zero) cs.

(** The gradient rule of [FlattenFeaturesOperation] and
    [ReshapeFeaturesOperation] in the words of the specification: ones of
    the input shape for an end node, otherwise the sum of every consumer's
    gradient reshaped to the input shape. *)
Definition reshaped_gradient_sum (endNode : bool) (inShape : list Z)
    (outs : list (Consumer A)) : result (ndarray A) :=
  if endNode then np_ones inShape
  else
    zeros ← np_zeros inShape;
    reshaped ← mapM (fun out => np_reshape (getGradient out) inShape) outs;
    for_each np_iadd reshaped zeros.

(** One consumer's gradient brought to the input's shape: reshaped, for
    the two reshaping operations, or scattered into zeros at the positions
    of the index expression, for the slice. *)
Definition reshaped_contribution (inShape : list Z) (out : Consumer A)
  : result (ndarray A) :=
  np_reshape (getGradient out) inShape.

Definition scattered_contribution (inShape : list Z) (idx : list index)
    (out : Consumer A) : result (ndarray A) :=
  grad ← np_zeros inShape;
  np_setitem grad idx (getGradient out).

(** The per-example shape of an array: its dimensions after the first. *)
Definition per_example_shape (a : ndarray A) : list Z := tail (nd_shape a).

(** The round trip of the specification: a flattening node on an input
    holding the array [a], a reshaping node with [exampleShape] on the
    flattening node, both with their shape set by [setShape], and [a]
    flowing through both. *)
Definition flatten_then_reshape (a : ndarray A) (exampleShape : shape_arg)
  : result (ndarray A) :=
  flat ← FlattenFeaturesOperation.setShape
           (flatten_new {| op_shape := nd_shape a; op_result := Some a |});
  resh ← ReshapeFeaturesOperation.setShape
           (reshape_new (flatten_as_input flat) exampleShape);
  x ← FlattenFeaturesOperation.perform flat a;
  ReshapeFeaturesOperation.perform resh x.

End notions.

(** ** The example of the specification *)

(** A 2 x 2 input filled with zeros, the index expression [[0, :]] and a
    consumer whose gradient on the sliced output is all ones. *)
Definition example_input : Operation float :=
  {| op_shape := [2; 2];
     op_result := Some {| nd_shape := [2; 2]; nd_data := replicate 4 0%float |} |}.

Definition example_index : list index := [Int 0; full_slice].

Definition example_ones : Consumer float :=
  {| getGradient := {| nd_shape := [2]; nd_data := [1%float; 1%float] |} |}.

(** The slice node of the example, with its one consumer. *)
Definition example_slice : SliceOperation.t float :=
  {| SliceOperation.inputA := example_input;
     SliceOperation.indexExp := example_index;
     SliceOperation.shape := [2];
     SliceOperation.endNode := false;
     SliceOperation.outputs := [example_ones] |}.

(** ** Notions used by the further properties *)

Section further_notions.
Context {A : Type} `{Scalar A}.

(** A reshaping node seen as the input operation of the next one. *)
Definition reshape_as_input (self : ReshapeFeaturesOperation.t A)
  : Operation A :=
  {| op_shape := ReshapeFeaturesOperation.shape self; op_result := None |}.

(** The round trip in the other order: a reshaping node with
    [exampleShape] on an input holding the array [a], a flattening node on
    the reshaping node, both with their shape set by [setShape], and [a]
    flowing through both. *)
Definition reshape_then_flatten (a : ndarray A) (exampleShape : shape_arg)
  : result (ndarray A) :=
  resh ← ReshapeFeaturesOperation.setShape
           (reshape_new {| op_shape := nd_shape a; op_result := Some a |}
                        exampleShape);
  flat ← FlattenFeaturesOperation.setShape
           (flatten_new (reshape_as_input resh));
  x ← ReshapeFeaturesOperation.perform resh a;
  FlattenFeaturesOperation.perform flat x.

(** The flat positions [0, 1, ..., n - 1]. *)
Definition all_positions (n : nat) : list Z := map Z.of_nat (seq 0 n).

End further_notions.

(** Integer items remove an axis, [newaxis] items add one. *)
Definition is_int (i : index) : bool :=
  match i with
  | Int _ => true
  | _ => false
  end.

Definition is_newaxis (i : index) : bool :=
  match i with
  | NewAxis => true
  | _ => false
  end.

(** * Properties *)

(** ** The model on small inputs *)

(** [list(range(10))[8:2:-2]], [[::-1]], [[-3:]], [[5:100]] and
    [[3:-100:-1]] as Python computes them. *)
Example slice_indices_backward :
  slice_indices (Some 8) (Some 2) (Some (-2)) 10 = Ok [8; 6; 4].
Proof. reflexivity. Qed.

Example slice_indices_reversed :
  slice_indices None None (Some (-1)) 4 = Ok [3; 2; 1; 0].
Proof. reflexivity. Qed.

Example slice_indices_from_end :
  slice_indices (Some (-3)) None None 10 = Ok [7; 8; 9].
Proof. reflexivity. Qed.

Example slice_indices_clipped :
  slice_indices (Some 5) (Some 100) None 10 = Ok [5; 6; 7; 8; 9].
Proof. reflexivity. Qed.

Example slice_indices_clipped_backward :
  slice_indices (Some 3) (Some (-100)) (Some (-1)) 10 = Ok [3; 2; 1; 0].
Proof. reflexivity. Qed.

(** On an array of shape (3, 4): [a[-1::-2, ...]] takes rows 2 and 0,
    [a[..., 1:10:2]] columns 1 and 3, [a[None, -1, None]] the last row under
    two new axes; three indices are too many and row 3 does not exist. *)
Example select_rows_backward :
  select [3; 4] [Slice (Some (-1)) None (Some (-2)); Ellipsis]
  = Ok ([2; 4], [8; 9; 10; 11; 0; 1; 2; 3]).
Proof. reflexivity. Qed.

Example select_columns :
  select [3; 4] [Ellipsis; Slice (Some 1) (Some 10) (Some 2)]
  = Ok ([3; 2], [1; 3; 5; 7; 9; 11]).
Proof. reflexivity. Qed.

Example select_newaxis :
  select [3; 4] [NewAxis; Int (-1); NewAxis] = Ok ([1; 1; 4], [8; 9; 10; 11]).
Proof. reflexivity. Qed.

Example select_too_many_indices :
  select [3; 4] [Int 0; Int 1; Int 2] = Raise IndexError.
Proof. reflexivity. Qed.

Example select_out_of_bounds : select [3; 4] [Int 3] = Raise IndexError.
Proof. reflexivity. Qed.

Example select_zero_step :
  select [3; 4] [Slice None None (Some 0)] = Raise ValueError.
Proof. reflexivity. Qed.

(** [a += b] with [a] of shape (2, 3): a row is added to every row, a
    column to every column, and a value of higher rank is refused. *)
Example np_iadd_row :
  np_iadd {| nd_shape := [2; 3]; nd_data := [1; 2; 3; 4; 5; 6] |}
          {| nd_shape := [3]; nd_data := [10; 20; 30] |}
  = Ok {| nd_shape := [2; 3]; nd_data := [11; 22; 33; 14; 25; 36] |}.
Proof. reflexivity. Qed.

Example np_iadd_column :
  np_iadd {| nd_shape := [2; 3]; nd_data := [1; 2; 3; 4; 5; 6] |}
          {| nd_shape := [2; 1]; nd_data := [10; 20] |}
  = Ok {| nd_shape := [2; 3]; nd_data := [11; 12; 13; 24; 25; 26] |}.
Proof. reflexivity. Qed.

Example np_iadd_higher_rank :
  np_iadd {| nd_shape := [2; 3]; nd_data := [1; 2; 3; 4; 5; 6] |}
          {| nd_shape := [1; 2; 3]; nd_data := [10; 20; 30; 40; 50; 60] |}
  = Raise ValueError.
Proof. reflexivity. Qed.

(** [a[:, 1] = v] with [v] of shape (1, 2): the unit dimension is dropped. *)
Example np_setitem_column :
  np_setitem {| nd_shape := [2; 3]; nd_data := [1; 2; 3; 4; 5; 6] |}
             [full_slice; Int 1]
             {| nd_shape := [1; 2]; nd_data := [10; 20] |}
  = Ok {| nd_shape := [2; 3]; nd_data := [1; 10; 3; 4; 20; 6] |}.
Proof. reflexivity. Qed.

(** [reshape] infers one dimension and refuses a wrong element count. *)
Example np_reshape_infers :
  np_reshape {| nd_shape := [2; 6]; nd_data := seqZ 0 12 |} [3; -1]
  = Ok {| nd_shape := [3; 4]; nd_data := seqZ 0 12 |}.
Proof. reflexivity. Qed.

Example np_reshape_refuses :
  np_reshape {| nd_shape := [2; 6]; nd_data := seqZ 0 12 |} [5; 2]
  = Raise ValueError.
Proof. reflexivity. Qed.

(** ** The result monad *)

Lemma bind_Ok {A B : Type} (f : A -> result B) (a : A) :
  (Ok a ≫= f) = f a.
Proof. reflexivity. Qed.

Lemma bind_Raise {A B : Type} (f : A -> result B) (e : exception) :
  (Raise e ≫= f) = Raise e.
Proof. reflexivity. Qed.

Lemma bind_Ok_inv {A B : Type} (f : A -> result B) (m : result A) (b : B) :
  (m ≫= f) = Ok b -> exists a, m = Ok a /\ f a = Ok b.
Proof. destruct m as [a|e]; [eauto | discriminate]. Qed.

(** Inversion of one successful monadic step in hypothesis [H]. *)
Tactic Notation "inv_bind" hyp(H) "as" simple_intropattern(x) ident(Hx) :=
  apply bind_Ok_inv in H; destruct H as (x & Hx & H).

Lemma tuple_get_lookup (t : list Z) (i : nat) (d : Z) :
  t !! i = Some d -> tuple_get t i = Ok d.
Proof. unfold tuple_get. intros ->. reflexivity. Qed.

(** ** Shapes *)

Lemma valid_shape_cons (d : Z) (s : list Z) :
  valid_shape (d :: s) = true <-> 0 <= d /\ valid_shape s = true.
Proof. simpl. rewrite andb_true_iff, Z.leb_le. tauto. Qed.

Lemma prod_shape_cons (d : Z) (s : list Z) :
  prod_shape (d :: s) = d * prod_shape s.
Proof. reflexivity. Qed.

Lemma prod_shape_nonneg (s : list Z) :
  valid_shape s = true -> 0 <= prod_shape s.
Proof.
  induction s as [|d s IH]; [simpl; lia|].
  rewrite valid_shape_cons, prod_shape_cons. intros [Hd Hs].
  specialize (IH Hs). lia.
Qed.

Lemma prod_shape_to_nat (d : Z) (s : list Z) :
  0 <= d -> valid_shape s = true ->
  Z.to_nat (prod_shape (d :: s)) = (Z.to_nat d * Z.to_nat (prod_shape s))%nat.
Proof.
  intros Hd Hs. rewrite prod_shape_cons.
  apply Z2Nat.inj_mul; [assumption | apply prod_shape_nonneg; assumption].
Qed.

Lemma filter_valid_neg (s : list Z) :
  valid_shape s = true -> filter (fun d => d < 0) s = [].
Proof.
  induction s as [|d s IH]; [reflexivity|].
  rewrite valid_shape_cons. intros [Hd Hs].
  rewrite filter_cons_False by lia. auto.
Qed.

Lemma filter_valid_nonneg (s : list Z) :
  valid_shape s = true -> filter (fun d => 0 <= d) s = s.
Proof.
  induction s as [|d s IH]; [reflexivity|].
  rewrite valid_shape_cons. intros [Hd Hs].
  rewrite filter_cons_True by lia. f_equal. auto.
Qed.

Section numpy_facts.
Context {A : Type} `{Scalar A}.

Lemma np_full_ok (x : A) (s : list Z) :
  valid_shape s = true ->
  np_full x s =
    Ok {| nd_shape := s; nd_data := replicate (Z.to_nat (prod_shape s)) x |}.
Proof. unfold np_full. intros ->. reflexivity. Qed.

Lemma np_full_Ok_inv (x : A) (s : list Z) (a : ndarray A) :
  np_full x s = Ok a ->
  valid_shape s = true /\
  a = {| nd_shape := s; nd_data := replicate (Z.to_nat (prod_shape s)) x |}.
Proof.
  unfold np_full. destruct (valid_shape s); [|discriminate].
  intros [= <-]. auto.
Qed.

(** Reshaping to a shape without unknown dimension and of the same
    element count keeps the flat data and installs the new shape. *)
Lemma np_reshape_ok (a : ndarray A) (s : list Z) :
  valid_shape s = true ->
  prod_shape (nd_shape a) = prod_shape s ->
  np_reshape a s = Ok {| nd_shape := s; nd_data := nd_data a |}.
Proof.
  intros Hs Hp. unfold np_reshape.
  rewrite filter_valid_neg, filter_valid_nonneg by assumption. simpl.
  rewrite Hp, Z.eqb_refl. reflexivity.
Qed.

Lemma np_reshape_mismatch (a : ndarray A) (s : list Z) :
  valid_shape s = true ->
  prod_shape (nd_shape a) <> prod_shape s ->
  np_reshape a s = Raise ValueError.
Proof.
  intros Hs Hp. unfold np_reshape.
  rewrite filter_valid_neg, filter_valid_nonneg by assumption. simpl.
  apply Z.eqb_neq in Hp. rewrite Hp. reflexivity.
Qed.

(** The only exception of [reshape] is [ValueError]. *)
Lemma np_reshape_Raise (a : ndarray A) (s : list Z) (e : exception) :
  np_reshape a s = Raise e -> e = ValueError.
Proof.
  unfold np_reshape.
  destruct (length _) as [|[|n]];
    repeat match goal with |- context [if ?c then _ else _] => destruct c end;
    congruence.
Qed.

End numpy_facts.

Section broadcast_facts.
Context {A : Type} `{Scalar A}.

Lemma chunks_join (n k : nat) (d : list A) :
  length d = (k * n)%nat -> mjoin (chunks n k d) = d.
Proof.
  revert d. induction k as [|k IH]; intros d Hd; simpl in *.
  - destruct d; [reflexivity | discriminate].
  - rewrite IH by (rewrite length_drop; lia). apply take_drop.
Qed.

Lemma chunks_map_id (f : list A -> list A) (n k : nat) (d : list A) :
  (forall c, length c = n -> f c = c) ->
  length d = (k * n)%nat ->
  map f (chunks n k d) = chunks n k d.
Proof.
  intros Hf. revert d. induction k as [|k IH]; intros d Hd; simpl in *.
  - reflexivity.
  - rewrite IH by (rewrite length_drop; lia).
    rewrite Hf by (rewrite length_take; lia). reflexivity.
Qed.

Lemma broadcastable_refl (s : list Z) : broadcastable s s = true.
Proof.
  induction s as [|d s IH]; [reflexivity|].
  simpl. rewrite Z.eqb_refl, IH. reflexivity.
Qed.

Lemma pad_shape_same (s : list Z) : pad_shape (length s) s = s.
Proof. unfold pad_shape. rewrite Nat.sub_diag. reflexivity. Qed.

Lemma broadcast_data_refl (s : list Z) (d : list A) :
  valid_shape s = true ->
  length d = Z.to_nat (prod_shape s) ->
  broadcast_data s s d = d.
Proof.
  revert d. induction s as [|t ts IH]; intros d Hs Hd; [reflexivity|].
  apply valid_shape_cons in Hs as [Ht Hts].
  rewrite prod_shape_to_nat in Hd by assumption.
  cbn [broadcast_data]. rewrite Z.eqb_refl.
  rewrite chunks_map_id by (auto || lia).
  apply chunks_join. lia.
Qed.

(** Broadcasting an array to its own shape reads its elements in order. *)
Lemma broadcast_to_same (b : ndarray A) :
  nd_wf b -> broadcast_to (nd_shape b) b = Ok (nd_data b).
Proof.
  intros [Hs Hd]. unfold broadcast_to.
  rewrite pad_shape_same, broadcastable_refl, Nat.leb_refl. simpl.
  rewrite broadcast_data_refl by assumption. reflexivity.
Qed.

Lemma strip_leading_ones_short (n : nat) (s : list Z) :
  (length s <= n)%nat -> strip_leading_ones n s = s.
Proof.
  destruct s as [|d s]; [reflexivity|]. intros Hn.
  cbn [strip_leading_ones].
  replace (n <? length (d :: s))%nat with false; [reflexivity|].
  symmetry. apply Nat.ltb_ge. assumption.
Qed.

Lemma broadcast_assign_same (v : ndarray A) :
  nd_wf v -> broadcast_assign (nd_shape v) v = Ok (nd_data v).
Proof.
  intros Hv. unfold broadcast_assign.
  rewrite strip_leading_ones_short by reflexivity.
  apply (broadcast_to_same {| nd_shape := nd_shape v; nd_data := nd_data v |}).
  exact Hv.
Qed.

(** [a += b] on arrays of one shape is the elementwise addition. *)
Lemma np_iadd_same_shape (a b : ndarray A) :
  nd_wf b -> nd_shape b = nd_shape a ->
  np_iadd a b =
    Ok {| nd_shape := nd_shape a;
          nd_data := zip_with add (nd_data a) (nd_data b) |}.
Proof.
  intros Hb Hs. unfold np_iadd. rewrite <- Hs.
  rewrite broadcast_to_same by assumption. reflexivity.
Qed.

(** The only exception of [+=] is [ValueError]. *)
Lemma np_iadd_Raise (a b : ndarray A) (e : exception) :
  np_iadd a b = Raise e -> e = ValueError.
Proof.
  unfold np_iadd, broadcast_to.
  destruct (_ && _); simpl; congruence.
Qed.

End broadcast_facts.

(** ** Shape inference *)

Section setShape_facts.
Context {A : Type} `{Scalar A}.

(** The loop of [FlattenFeaturesOperation.setShape] multiplies the
    dimensions after the first one. *)
Lemma flatten_loop (n : Z) (ds pre : list Z) (acc : Z) :
  for_each (fun numFeatures index =>
              d ← tuple_get (n :: pre ++ ds) (index + 1);
              Ok (numFeatures * d))
           (seq (length pre) (length ds)) acc
  = Ok (acc * prod_shape ds).
Proof.
  revert pre acc. induction ds as [|d ds IH]; intros pre acc.
  - simpl. f_equal. lia.
  - cbn [length seq for_each].
    rewrite (tuple_get_lookup _ _ d).
    2:{ rewrite Nat.add_1_r.
        change ((pre ++ d :: ds) !! length pre = Some d).
        apply list_lookup_middle. reflexivity. }
    rewrite bind_Ok, bind_Ok.
    specialize (IH (pre ++ [d]) (acc * d)).
    rewrite length_app, Nat.add_1_r, <- app_assoc in IH. cbn [app] in IH.
    rewrite IH, prod_shape_cons. f_equal. ring.
Qed.

Lemma flatten_setShape_rank_ge_2 (self : FlattenFeaturesOperation.t A)
    (n d : Z) (ds : list Z) :
  op_shape (FlattenFeaturesOperation.inputA self) = n :: d :: ds ->
  FlattenFeaturesOperation.setShape self =
    Ok (FlattenFeaturesOperation.set_shape self n [n; prod_shape (d :: ds)]).
Proof.
  intros Hs. unfold FlattenFeaturesOperation.setShape. rewrite Hs.
  cbn [length Nat.leb]. cbn [tuple_get lookup list_lookup].
  rewrite bind_Ok.
  replace (S (S (length ds)) - 1)%nat with (length (d :: ds)) by (simpl; lia).
  pose proof (flatten_loop n (d :: ds) [] 1) as Hloop.
  cbn [app] in Hloop. change (length (@nil Z)) with 0%nat in Hloop.
  rewrite Hloop, bind_Ok, Z.mul_1_l. reflexivity.
Qed.

Lemma flatten_setShape_rank_1 (self : FlattenFeaturesOperation.t A) (d : Z) :
  op_shape (FlattenFeaturesOperation.inputA self) = [d] ->
  FlattenFeaturesOperation.setShape self =
    Ok (FlattenFeaturesOperation.set_shape self 1 [1; d]).
Proof.
  intros Hs. unfold FlattenFeaturesOperation.setShape. rewrite Hs.
  reflexivity.
Qed.

Lemma flatten_setShape_rank_0 (self : FlattenFeaturesOperation.t A) :
  op_shape (FlattenFeaturesOperation.inputA self) = [] ->
  FlattenFeaturesOperation.setShape self = Raise IndexError.
Proof.
  intros Hs. unfold FlattenFeaturesOperation.setShape. rewrite Hs.
  reflexivity.
Qed.

(** The shape [setShape] computes for a flattening node, as a function of
    the input shape. *)
Lemma flatten_setShape_shape (self : FlattenFeaturesOperation.t A) :
  FlattenFeaturesOperation.shape <$> FlattenFeaturesOperation.setShape self =
    match op_shape (FlattenFeaturesOperation.inputA self) with
    | [] => Raise IndexError
    | [d] => Ok [1; d]
    | n :: ds => Ok [n; prod_shape ds]
    end.
Proof.
  destruct (op_shape (FlattenFeaturesOperation.inputA self))
    as [|n [|d ds]] eqn:Hs.
  - rewrite flatten_setShape_rank_0 by assumption. reflexivity.
  - rewrite (flatten_setShape_rank_1 self n) by assumption. reflexivity.
  - rewrite (flatten_setShape_rank_ge_2 self n d ds) by assumption.
    reflexivity.
Qed.

Lemma reshape_setShape_tuple (self : ReshapeFeaturesOperation.t A)
    (es : list Z) :
  ReshapeFeaturesOperation.exampleShape self = ShapeTuple es ->
  ReshapeFeaturesOperation.setShape self =
    let n := match op_shape (ReshapeFeaturesOperation.inputA self) with
             | n :: _ :: _ => n
             | _ => 1
             end in
    Ok (ReshapeFeaturesOperation.set_shape self n (n :: es)).
Proof.
  intros He. unfold ReshapeFeaturesOperation.setShape. rewrite He.
  destruct (op_shape (ReshapeFeaturesOperation.inputA self))
    as [|n [|d ds]]; reflexivity.
Qed.

Lemma reshape_setShape_shape (self : ReshapeFeaturesOperation.t A) :
  ReshapeFeaturesOperation.shape <$> ReshapeFeaturesOperation.setShape self =
    match ReshapeFeaturesOperation.exampleShape self with
    | ShapeTuple es =>
        match op_shape (ReshapeFeaturesOperation.inputA self) with
        | n :: _ :: _ => Ok (n :: es)
        | _ => Ok (1 :: es)
        end
    | ShapeInt _ => Raise TypeError
    end.
Proof.
  unfold ReshapeFeaturesOperation.setShape.
  destruct (ReshapeFeaturesOperation.exampleShape self) as [es|k];
    destruct (op_shape (ReshapeFeaturesOperation.inputA self))
      as [|n [|d ds]]; reflexivity.
Qed.

Lemma slice_setShape_shape (self : SliceOperation.t A) :
  SliceOperation.shape <$> SliceOperation.setShape self =
    (if valid_shape (op_shape (SliceOperation.inputA self))
     then fst <$> select (op_shape (SliceOperation.inputA self))
                        (SliceOperation.indexExp self)
     else Raise ValueError).
Proof.
  unfold SliceOperation.setShape, np_zeros, np_full, np_getitem.
  destruct (valid_shape _); [|reflexivity].
  rewrite bind_Ok. cbn [nd_shape].
  destruct (select _ _) as [[sh offs]|e]; reflexivity.
Qed.

End setShape_facts.

(** ** Gradients of the reshaping operations *)

Section reshape_gradient_facts.
Context {A : Type} `{Scalar A}.

Lemma accumulate_length (acc : list A) (outs : list (Consumer A)) (n : nat) :
  length acc = n ->
  Forall (fun out => length (nd_data (getGradient out)) = n) outs ->
  length (accumulate acc outs) = n.
Proof.
  intros Hacc Houts. revert acc Hacc.
  induction Houts as [|out outs Hout _ IH]; intros acc Hacc; [exact Hacc|].
  apply IH. rewrite length_zip_with. lia.
Qed.

(** The accumulation loop shared by the two [performGradient]. *)
Lemma reshape_loop_ok (inShape : list Z) (outs : list (Consumer A))
    (acc : ndarray A) :
  valid_shape inShape = true ->
  Forall (fits inShape) outs ->
  nd_shape acc = inShape ->
  for_each (fun grad out =>
              g ← np_reshape (getGradient out) inShape;
              np_iadd grad g) outs acc
  = Ok {| nd_shape := inShape; nd_data := accumulate (nd_data acc) outs |}.
Proof.
  intros Hin Houts. revert acc.
  induction Houts as [|out outs [[Hv Hlen] Hsize] _ IH]; intros acc Hacc.
  - destruct acc; simpl in *; subst; reflexivity.
  - cbn [for_each].
    rewrite np_reshape_ok, bind_Ok by assumption.
    rewrite np_iadd_same_shape.
    + rewrite bind_Ok, IH by (simpl; assumption). reflexivity.
    + split; simpl; [assumption | congruence].
    + simpl. congruence.
Qed.

Lemma mapM_reshape_Raise (inShape : list Z) (outs : list (Consumer A))
    (e : exception) :
  mapM (fun out => np_reshape (getGradient out) inShape) outs = Raise e ->
  e = ValueError.
Proof.
  induction outs as [|out outs IH]; [discriminate|].
  cbn [mapM]. destruct (np_reshape _ _) as [r|e'] eqn:Hr.
  - rewrite bind_Ok. destruct (mapM _ outs) as [rs|e''].
    + discriminate.
    + rewrite bind_Raise. intros [= <-]. apply IH. reflexivity.
  - rewrite bind_Raise. intros [= <-]. eapply np_reshape_Raise, Hr.
Qed.

(** Reshaping inside the loop or before it makes no difference. *)
Lemma reshape_loop_split (inShape : list Z) (outs : list (Consumer A))
    (acc : ndarray A) :
  for_each (fun grad out =>
              g ← np_reshape (getGradient out) inShape;
              np_iadd grad g) outs acc
  = (reshaped ← mapM (fun out => np_reshape (getGradient out) inShape) outs;
     for_each np_iadd reshaped acc).
Proof.
  revert acc. induction outs as [|out outs IH]; intros acc; [reflexivity|].
  cbn [for_each mapM].
  destruct (np_reshape (getGradient out) inShape) as [r|e]; [|reflexivity].
  rewrite !bind_Ok.
  destruct (np_iadd acc r) as [acc'|e] eqn:Hadd.
  - rewrite bind_Ok, IH.
    destruct (mapM _ outs) as [rs|e]; [|reflexivity].
    rewrite !bind_Ok. cbn [for_each]. rewrite Hadd. reflexivity.
  - rewrite bind_Raise.
    destruct (mapM _ outs) as [rs|e'] eqn:Hm.
    + rewrite !bind_Ok. cbn [for_each]. rewrite Hadd. reflexivity.
    + rewrite bind_Raise. apply np_iadd_Raise in Hadd.
      apply mapM_reshape_Raise in Hm. subst. reflexivity.
Qed.

Lemma flatten_performGradient_spec (self : FlattenFeaturesOperation.t A) :
  FlattenFeaturesOperation.performGradient self =
    reshaped_gradient_sum
      (FlattenFeaturesOperation.endNode self)
      (op_shape (FlattenFeaturesOperation.inputA self))
      (FlattenFeaturesOperation.outputs self).
Proof.
  unfold FlattenFeaturesOperation.performGradient, reshaped_gradient_sum.
  destruct (FlattenFeaturesOperation.endNode self); [reflexivity|].
  destruct (np_zeros _) as [z|e]; [|reflexivity].
  rewrite !bind_Ok. apply reshape_loop_split.
Qed.

Lemma reshape_performGradient_spec (self : ReshapeFeaturesOperation.t A) :
  ReshapeFeaturesOperation.performGradient self =
    reshaped_gradient_sum
      (ReshapeFeaturesOperation.endNode self)
      (op_shape (ReshapeFeaturesOperation.inputA self))
      (ReshapeFeaturesOperation.outputs self).
Proof.
  unfold ReshapeFeaturesOperation.performGradient, reshaped_gradient_sum.
  destruct (ReshapeFeaturesOperation.endNode self); [reflexivity|].
  destruct (np_zeros _) as [z|e]; [|reflexivity].
  rewrite !bind_Ok. apply reshape_loop_split.
Qed.

Lemma flatten_performGradient_sum (self : FlattenFeaturesOperation.t A) :
  let inShape := op_shape (FlattenFeaturesOperation.inputA self) in
  FlattenFeaturesOperation.endNode self = false ->
  valid_shape inShape = true ->
  Forall (fits inShape) (FlattenFeaturesOperation.outputs self) ->
  FlattenFeaturesOperation.performGradient self =
    Ok {| nd_shape := inShape;
          nd_data := accumulate (replicate (Z.to_nat (prod_shape inShape)) zero)
                                (FlattenFeaturesOperation.outputs self) |}.
Proof.
  intros inShape Hend Hin Houts.
  unfold FlattenFeaturesOperation.performGradient. rewrite Hend.
  fold inShape. unfold np_zeros. rewrite np_full_ok, bind_Ok by assumption.
  rewrite reshape_loop_ok by (assumption || reflexivity). reflexivity.
Qed.

Lemma reshape_performGradient_sum (self : ReshapeFeaturesOperation.t A) :
  let inShape := op_shape (ReshapeFeaturesOperation.inputA self) in
  ReshapeFeaturesOperation.endNode self = false ->
  valid_shape inShape = true ->
  Forall (fits inShape) (ReshapeFeaturesOperation.outputs self) ->
  ReshapeFeaturesOperation.performGradient self =
    Ok {| nd_shape := inShape;
          nd_data := accumulate (replicate (Z.to_nat (prod_shape inShape)) zero)
                                (ReshapeFeaturesOperation.outputs self) |}.
Proof.
  intros inShape Hend Hin Houts.
  unfold ReshapeFeaturesOperation.performGradient. rewrite Hend.
  fold inShape. unfold np_zeros. rewrite np_full_ok, bind_Ok by assumption.
  rewrite reshape_loop_ok by (assumption || reflexivity). reflexivity.
Qed.

End reshape_gradient_facts.

(** ** Basic indexing selects distinct positions inside the array *)

Lemma map_fmap {A B : Type} (f : A -> B) (l : list A) : map f l = f <$> l.
Proof. reflexivity. Qed.

Lemma flat_map_bind {A B : Type} (f : A -> list B) (l : list A) :
  flat_map f l = l ≫= f.
Proof. reflexivity. Qed.

Lemma adjust_index_bounds (i d i' : Z) :
  adjust_index i d = Ok i' -> 0 <= i' < d.
Proof.
  unfold adjust_index.
  destruct (_ && _) eqn:Hb; [|discriminate].
  intros [= <-]. apply andb_true_iff in Hb as [H1 H2]. lia.
Qed.

Lemma adjust_bound_forward (b len : Z) :
  0 <= len -> 0 <= adjust_bound b len 0 len <= len.
Proof.
  intros Hlen. unfold adjust_bound.
  repeat match goal with |- context [if ?c then _ else _] =>
    destruct c eqn:? end; lia.
Qed.

Lemma adjust_bound_backward (b len : Z) :
  0 <= len -> -1 <= adjust_bound b len (-1) (len - 1) <= len - 1.
Proof.
  intros Hlen. unfold adjust_bound.
  repeat match goal with |- context [if ?c then _ else _] =>
    destruct c eqn:? end; lia.
Qed.

Lemma stride_forward (start stop step k : Z) :
  0 < step -> start < stop ->
  0 <= k <= (stop - start - 1) / step ->
  start <= start + k * step <= stop - 1.
Proof.
  intros Hstep Hlt [Hk0 Hk].
  pose proof (Z.mul_div_le (stop - start - 1) step Hstep). nia.
Qed.

Lemma stride_backward (start stop step k : Z) :
  step < 0 -> stop < start ->
  0 <= k <= (start - stop - 1) / (- step) ->
  stop + 1 <= start + k * step <= start.
Proof.
  intros Hstep Hlt [Hk0 Hk].
  pose proof (Z.mul_div_le (start - stop - 1) (- step) ltac:(lia)). nia.
Qed.

Lemma arithmetic_progression_NoDup (start step : Z) (n : nat) :
  step <> 0 ->
  NoDup (map (fun k => start + Z.of_nat k * step) (seq 0 n)).
Proof.
  intros Hstep. rewrite map_fmap.
  apply NoDup_fmap_2; [|apply NoDup_seq].
  intros j k Hjk. nia.
Qed.

(** The positions a slice selects on an axis are distinct and inside it. *)
Lemma slice_indices_spec (start stop step : option Z) (len : Z) (sel : list Z) :
  0 <= len ->
  slice_indices start stop step len = Ok sel ->
  NoDup sel /\ Forall (fun i => 0 <= i < len) sel.
Proof.
  intros Hlen. unfold slice_indices.
  destruct (Z.eqb_spec (default 1 step) 0) as [|Hstep]; [discriminate|].
  set (st := default 1 step) in *.
  intros [= <-]. split; [apply arithmetic_progression_NoDup; assumption|].
  apply list.Forall_forall. intros i Hi. rewrite map_fmap in Hi.
  apply list_elem_of_fmap in Hi as (k & -> & Hk). apply elem_of_seq in Hk.
  destruct (Z.ltb_spec st 0) as [Hneg|Hpos].
  - (* backward *)
    set (start' := match start with
                   | Some b => adjust_bound b len (-1) (len - 1)
                   | None => len - 1 end) in *.
    set (stop' := match stop with
                  | Some b => adjust_bound b len (-1) (len - 1)
                  | None => -1 end) in *.
    assert (-1 <= start' <= len - 1) as Hstart.
    { subst start'. destruct start; [apply adjust_bound_backward|]; lia. }
    assert (-1 <= stop' <= len - 1) as Hstop.
    { subst stop'. destruct stop; [apply adjust_bound_backward|]; lia. }
    destruct (Z.ltb_spec stop' start') as [Hlt|Hge]; [|simpl in Hk; lia].
    pose proof (Z.div_pos (start' - stop' - 1) (- st) ltac:(lia) ltac:(lia)).
    pose proof (stride_backward start' stop' st (Z.of_nat k) Hneg Hlt
                  ltac:(lia)).
    lia.
  - (* forward *)
    set (start' := match start with
                   | Some b => adjust_bound b len 0 len
                   | None => 0 end) in *.
    set (stop' := match stop with
                  | Some b => adjust_bound b len 0 len
                  | None => len end) in *.
    assert (0 <= start' <= len) as Hstart.
    { subst start'. destruct start; [apply adjust_bound_forward|]; lia. }
    assert (0 <= stop' <= len) as Hstop.
    { subst stop'. destruct stop; [apply adjust_bound_forward|]; lia. }
    destruct (Z.ltb_spec start' stop') as [Hlt|Hge]; [|simpl in Hk; lia].
    pose proof (Z.div_pos (stop' - start' - 1) st ltac:(lia) ltac:(lia)).
    pose proof (stride_forward start' stop' st (Z.of_nat k) ltac:(lia) Hlt
                  ltac:(lia)).
    lia.
Qed.

Lemma filter_consumes_fill (k : nat) :
  List.filter consumes_axis (replicate k full_slice) = replicate k full_slice.
Proof. induction k as [|k IH]; [reflexivity|]. simpl. rewrite IH. reflexivity. Qed.

Lemma expand_ellipsis_axes (fill idx : list index) :
  List.filter consumes_axis fill = fill ->
  length (List.filter consumes_axis
            (flat_map (fun i => if is_ellipsis i then fill else [i]) idx))
  = (length (List.filter consumes_axis idx)
     + length (List.filter is_ellipsis idx) * length fill)%nat.
Proof.
  intros Hfill. induction idx as [|i idx IH]; [reflexivity|].
  cbn [flat_map]. rewrite List.filter_app, length_app, IH.
  destruct i; simpl; rewrite ?Hfill; lia.
Qed.

(** An expanded index expression names every axis of the array once. *)
Lemma expand_index_axes (ndim : nat) (idx full : list index) :
  expand_index ndim idx = Ok full ->
  length (List.filter consumes_axis full) = ndim.
Proof.
  unfold expand_index.
  destruct (Nat.ltb_spec 1 (length (List.filter is_ellipsis idx)));
    [discriminate|].
  destruct (Nat.ltb_spec ndim (length (List.filter consumes_axis idx)));
    [discriminate|].
  destruct (Nat.eqb_spec (length (List.filter is_ellipsis idx)) 0);
    intros [= <-].
  - rewrite List.filter_app, length_app, filter_consumes_fill, length_replicate.
    lia.
  - rewrite expand_ellipsis_axes by apply filter_consumes_fill.
    rewrite length_replicate.
    replace (length (List.filter is_ellipsis idx)) with 1%nat by lia. lia.
Qed.

Lemma length_flat_map_blocks {B C : Type} (g : B -> C -> C) (sel : list B)
    (l : list C) :
  length (flat_map (fun i => map (g i) l) sel) = (length sel * length l)%nat.
Proof.
  induction sel as [|i sel IH]; [reflexivity|].
  cbn [flat_map]. rewrite length_app, length_map, IH. simpl. lia.
Qed.

(** Row-major positions: blocks of [p] consecutive positions, one block per
    selected index of the axis, never overlap. *)
Lemma block_offsets_NoDup (p : Z) (sel offs : list Z) :
  NoDup sel -> NoDup offs ->
  Forall (fun o => 0 <= o < p) offs ->
  NoDup (flat_map (fun i => map (fun o => i * p + o) offs) sel).
Proof.
  intros Hsel Hoffs Hb. rewrite flat_map_bind.
  apply NoDup_bind; [| |assumption].
  - intros i j y _ _ Hi Hj. rewrite map_fmap in Hi, Hj.
    apply list_elem_of_fmap in Hi as (o1 & -> & Ho1).
    apply list_elem_of_fmap in Hj as (o2 & Heq & Ho2).
    rewrite list.Forall_forall in Hb.
    pose proof (Hb _ Ho1). pose proof (Hb _ Ho2). nia.
  - intros i _. rewrite map_fmap. apply NoDup_fmap_2; [|assumption].
    intros o1 o2 Ho. lia.
Qed.

Lemma block_offsets_bounds (d p : Z) (sel offs : list Z) :
  Forall (fun i => 0 <= i < d) sel ->
  Forall (fun o => 0 <= o < p) offs ->
  Forall (fun o => 0 <= o < d * p)
         (flat_map (fun i => map (fun o => i * p + o) offs) sel).
Proof.
  intros Hsel Hoffs. rewrite list.Forall_forall in *.
  intros y Hy. rewrite flat_map_bind in Hy.
  apply list_elem_of_bind in Hy as (i & Hy & Hi).
  rewrite map_fmap in Hy. apply list_elem_of_fmap in Hy as (o & -> & Ho).
  pose proof (Hsel _ Hi). pose proof (Hoffs _ Ho). nia.
Qed.

(** The view of an index expression that names every axis: its shape is a
    shape, it has one position per element, and the positions are distinct
    positions of the indexed array. *)
Lemma index_view_spec (idx : list index) (dims sh offs : list Z) :
  valid_shape dims = true ->
  length (List.filter consumes_axis idx) = length dims ->
  index_view dims idx = Ok (sh, offs) ->
  valid_shape sh = true /\
  length offs = Z.to_nat (prod_shape sh) /\
  NoDup offs /\
  Forall (fun o => 0 <= o < prod_shape dims) offs.
Proof.
  revert dims sh offs.
  induction idx as [|i idx IH]; intros dims sh offs Hdims Hax Hview.
  - destruct dims; [|discriminate]. injection Hview as <- <-.
    repeat split; [apply NoDup_singleton|].
    apply Forall_singleton. simpl. lia.
  - destruct i as [i|start stop step| |]; cbn [index_view] in Hview.
    + destruct dims as [|d ds]; [discriminate|].
      apply valid_shape_cons in Hdims as [Hd Hds].
      inv_bind Hview as x Hx. apply adjust_index_bounds in Hx.
      inv_bind Hview as [sh' offs'] Hrec. injection Hview as <- <-.
      simpl in Hax. injection Hax as Hax.
      destruct (IH ds sh' offs' Hds Hax Hrec) as (Hv & Hl & Hn & Hb).
      split; [assumption|]. split; [rewrite length_map; assumption|].
      pose proof (prod_shape_nonneg ds Hds).
      split.
      * rewrite map_fmap. apply NoDup_fmap_2; [|assumption].
        intros o1 o2 Ho. lia.
      * rewrite prod_shape_cons, map_fmap. apply Forall_fmap.
        eapply list.Forall_impl; [exact Hb|]. simpl. intros o Ho. nia.
    + destruct dims as [|d ds]; [discriminate|].
      apply valid_shape_cons in Hdims as [Hd Hds].
      inv_bind Hview as sel Hx.
      apply slice_indices_spec in Hx as [Hsel Hsb]; [|assumption].
      inv_bind Hview as [sh' offs'] Hrec. injection Hview as <- <-.
      simpl in Hax. injection Hax as Hax.
      destruct (IH ds sh' offs' Hds Hax Hrec) as (Hv & Hl & Hn & Hb).
      split; [apply valid_shape_cons; split; [lia | assumption]|].
      split.
      * rewrite length_flat_map_blocks, Hl, prod_shape_cons.
        rewrite Z2Nat.inj_mul, Nat2Z.id;
          [reflexivity | lia | apply prod_shape_nonneg; assumption].
      * split; [apply block_offsets_NoDup; assumption|].
        rewrite prod_shape_cons. apply block_offsets_bounds; assumption.
    + apply IH; assumption.
    + inv_bind Hview as [sh' offs'] Hrec. injection Hview as <- <-.
      destruct (IH dims sh' offs' Hdims Hax Hrec) as (Hv & Hl & Hn & Hb).
      split; [assumption|]. split; [|split; assumption].
      rewrite prod_shape_cons, Z.mul_1_l. assumption.
Qed.

Lemma select_spec (idx : list index) (dims sh offs : list Z) :
  valid_shape dims = true ->
  select dims idx = Ok (sh, offs) ->
  valid_shape sh = true /\
  length offs = Z.to_nat (prod_shape sh) /\
  NoDup offs /\
  Forall (fun o => 0 <= o < prod_shape dims) offs.
Proof.
  intros Hdims Hsel. unfold select in Hsel. inv_bind Hsel as full Hx.
  apply expand_index_axes in Hx.
  eapply index_view_spec; eassumption.
Qed.

(** ** Scattering *)

Section scatter_facts.
Context {A : Type} `{Scalar A}.

Lemma writes_length (d : list A) (l : list (Z * A)) :
  length (foldl write d l) = length d.
Proof.
  revert d. induction l as [|ox l IH]; intros d; [reflexivity|].
  simpl. rewrite IH. apply length_insert.
Qed.

(** A position that is not written keeps its element. *)
Lemma writes_untouched (d : list A) (offs : list Z) (vals : list A) (p : nat) :
  (forall o, o ∈ offs -> Z.to_nat o <> p) ->
  foldl write d (zip offs vals) !! p = d !! p.
Proof.
  revert d vals. induction offs as [|o offs IH]; intros d vals Hp;
    [reflexivity|].
  destruct vals as [|v vals]; [reflexivity|].
  simpl. rewrite IH.
  - apply list_lookup_insert_ne. apply Hp. left.
  - intros o' Ho'. apply Hp. right. assumption.
Qed.

(** The [k]-th position written receives the [k]-th value. *)
Lemma writes_written (d : list A) (offs : list Z) (vals : list A)
    (k : nat) (o : Z) :
  NoDup offs ->
  Forall (fun o => 0 <= o < Z.of_nat (length d)) offs ->
  length vals = length offs ->
  offs !! k = Some o ->
  foldl write d (zip offs vals) !! Z.to_nat o = vals !! k.
Proof.
  revert d vals k.
  induction offs as [|o0 offs IH]; intros d vals k Hnd Hb Hlen Hk;
    [discriminate|].
  destruct vals as [|v vals]; [discriminate|].
  apply list.NoDup_cons in Hnd as [Hnotin Hnd].
  apply list.Forall_cons in Hb as [Hb0 Hb].
  simpl. destruct k as [|k].
  - injection Hk as ->.
    rewrite writes_untouched.
    + apply list_lookup_insert_eq. simpl. lia.
    + intros o' Ho' Heq. rewrite list.Forall_forall in Hb.
      pose proof (Hb _ Ho'). assert (o' = o) as -> by lia. contradiction.
  - change ((v :: vals) !! S k) with (vals !! k).
    change (offs !! k = Some o) in Hk.
    apply IH; try assumption.
    + unfold write. rewrite length_insert. assumption.
    + simpl in Hlen. lia.
Qed.

Lemma scatter_length (n : nat) (offs : list Z) (vals : list A) :
  length (scatter n offs vals) = n.
Proof. unfold scatter. rewrite writes_length. apply length_replicate. Qed.

Lemma scatter_selected (n : nat) (offs : list Z) (vals : list A)
    (k : nat) (o : Z) :
  NoDup offs ->
  Forall (fun o => 0 <= o < Z.of_nat n) offs ->
  length vals = length offs ->
  offs !! k = Some o ->
  scatter n offs vals !! Z.to_nat o = vals !! k.
Proof.
  intros Hnd Hb Hlen Hk. unfold scatter.
  apply writes_written; try assumption.
  rewrite length_replicate. assumption.
Qed.

Lemma scatter_unselected (n : nat) (offs : list Z) (vals : list A) (p : nat) :
  Forall (fun o => 0 <= o < Z.of_nat n) offs ->
  (p < n)%nat -> Z.of_nat p ∉ offs ->
  scatter n offs vals !! p = Some zero.
Proof.
  intros Hb Hp Hnot. unfold scatter. rewrite writes_untouched.
  - apply lookup_replicate_2. assumption.
  - intros o Ho Heq. rewrite list.Forall_forall in Hb.
    pose proof (Hb _ Ho). apply Hnot.
    replace (Z.of_nat p) with o by lia. assumption.
Qed.

(** Scattering is additive when zero plus zero is zero. *)
Lemma scatter_zip_with_add (n : nat) (offs : list Z) (a b : list A) :
  add zero zero = zero ->
  NoDup offs ->
  Forall (fun o => 0 <= o < Z.of_nat n) offs ->
  length a = length offs -> length b = length offs ->
  scatter n offs (zip_with add a b) =
    zip_with add (scatter n offs a) (scatter n offs b).
Proof.
  intros Hz Hnd Hb Ha Hlb. apply list_eq. intros p.
  rewrite lookup_zip_with.
  destruct (decide (p < n)%nat) as [Hp|Hp].
  - destruct (decide (Z.of_nat p ∈ offs)) as [Hin|Hnot].
    + apply list_elem_of_lookup in Hin as [k Hk].
      replace p with (Z.to_nat (Z.of_nat p)) by lia.
      rewrite !(scatter_selected n offs _ k) by
        (try assumption; rewrite length_zip_with; lia).
      apply lookup_zip_with.
    + rewrite !scatter_unselected by assumption. simpl. congruence.
  - rewrite !lookup_ge_None_2 by (rewrite scatter_length; lia). reflexivity.
Qed.

Lemma scatter_zeros (n : nat) (offs : list Z) :
  NoDup offs ->
  Forall (fun o => 0 <= o < Z.of_nat n) offs ->
  scatter n offs (replicate (length offs) zero) = replicate n zero.
Proof.
  intros Hnd Hb. apply list_eq. intros p.
  destruct (decide (p < n)%nat) as [Hp|Hp].
  - rewrite (lookup_replicate_2 n zero p Hp).
    destruct (decide (Z.of_nat p ∈ offs)) as [Hin|Hnot].
    + apply list_elem_of_lookup in Hin as [k Hk].
      replace p with (Z.to_nat (Z.of_nat p)) by lia.
      rewrite (scatter_selected n offs _ k) by
        (try assumption; apply length_replicate).
      apply lookup_replicate_2. eapply lookup_lt_Some, Hk.
    + apply scatter_unselected; assumption.
  - rewrite !lookup_ge_None_2;
      rewrite ?scatter_length, ?length_replicate; (reflexivity || lia).
Qed.

Lemma zip_with_seeded `{!ZeroSeed A} (n : nat) (a b : list A) :
  zip_with add (zip_with add (replicate n zero) a)
               (zip_with add (replicate n zero) b)
  = zip_with add (zip_with add (replicate n zero) a) b.
Proof.
  revert a b. induction n as [|n IH]; intros a b; [reflexivity|].
  destruct a as [|x a]; [reflexivity|].
  destruct b as [|y b]; [reflexivity|].
  simpl. rewrite add_seeded, IH. reflexivity.
Qed.

End scatter_facts.

(** ** Gradient of the slice *)

Section slice_gradient_facts.
Context {A : Type} `{Scalar A}.

Lemma shaped_length (sh : list Z) (outs : list (Consumer A)) :
  Forall (shaped sh) outs ->
  Forall (fun out => length (nd_data (getGradient out))
                     = Z.to_nat (prod_shape sh)) outs.
Proof.
  intros Houts. eapply list.Forall_impl; [exact Houts|].
  intros out [[_ Hlen] Hsh]. rewrite Hlen, Hsh. reflexivity.
Qed.

(** The loop [gradGather += out.getGradient(self)]. *)
Lemma gather_loop_ok (sh : list Z) (outs : list (Consumer A))
    (acc : ndarray A) :
  Forall (shaped sh) outs ->
  nd_shape acc = sh ->
  for_each (fun gradGather out => np_iadd gradGather (getGradient out))
           outs acc
  = Ok {| nd_shape := sh; nd_data := accumulate (nd_data acc) outs |}.
Proof.
  intros Houts. revert acc.
  induction Houts as [|out outs [Hwf Hsh] _ IH]; intros acc Hacc.
  - destruct acc; simpl in *; subst; reflexivity.
  - cbn [for_each].
    rewrite np_iadd_same_shape by (assumption || congruence).
    rewrite bind_Ok, IH by (simpl; assumption). reflexivity.
Qed.

Lemma np_setitem_same (a v : ndarray A) (idx : list index)
    (sh offs : list Z) :
  select (nd_shape a) idx = Ok (sh, offs) ->
  nd_wf v -> nd_shape v = sh ->
  np_setitem a idx v =
    Ok {| nd_shape := nd_shape a;
          nd_data := foldl write (nd_data a) (zip offs (nd_data v)) |}.
Proof.
  intros Hsel Hwf Hsh. unfold np_setitem. rewrite Hsel, bind_Ok.
  cbn beta iota. rewrite <- Hsh, broadcast_assign_same by assumption.
  reflexivity.
Qed.

(** A slice node whose [shape] is the one [setShape] computes. *)
Lemma slice_setShape_fixed (self : SliceOperation.t A) :
  SliceOperation.setShape self = Ok self ->
  valid_shape (op_shape (SliceOperation.inputA self)) = true /\
  exists offs,
    select (op_shape (SliceOperation.inputA self))
           (SliceOperation.indexExp self)
    = Ok (SliceOperation.shape self, offs).
Proof.
  unfold SliceOperation.setShape. intros Hset.
  inv_bind Hset as testMat Hz.
  apply np_full_Ok_inv in Hz as [Hvalid ->].
  inv_bind Hset as r Hget. unfold np_getitem in Hget. cbn [nd_shape] in Hget.
  inv_bind Hget as [sh offs] Hsel. injection Hget as <-.
  injection Hset as Hset. split; [assumption|].
  exists offs. rewrite Hsel.
  apply (f_equal SliceOperation.shape) in Hset. simpl in Hset.
  rewrite Hset. reflexivity.
Qed.

Lemma slice_performGradient_ok (self : SliceOperation.t A)
    (sh offs : list Z) :
  let inShape := op_shape (SliceOperation.inputA self) in
  valid_shape inShape = true ->
  select inShape (SliceOperation.indexExp self) = Ok (sh, offs) ->
  SliceOperation.shape self = sh ->
  SliceOperation.endNode self = false ->
  Forall (shaped sh) (SliceOperation.outputs self) ->
  SliceOperation.performGradient self =
    Ok {| nd_shape := inShape;
          nd_data :=
            scatter (Z.to_nat (prod_shape inShape)) offs
              (accumulate (replicate (Z.to_nat (prod_shape sh)) zero)
                          (SliceOperation.outputs self)) |}.
Proof.
  intros inShape Hin Hsel Hshape Hend Houts.
  destruct (select_spec _ _ _ _ Hin Hsel) as (Hsh & Hlen & Hnd & Hb).
  unfold SliceOperation.performGradient. rewrite Hend, Hshape.
  unfold np_zeros. rewrite (np_full_ok zero sh), bind_Ok by assumption.
  rewrite (gather_loop_ok sh) by (assumption || reflexivity).
  rewrite bind_Ok. fold inShape.
  rewrite (np_full_ok zero inShape), bind_Ok by assumption.
  rewrite (np_setitem_same _ _ _ sh offs); [reflexivity|assumption| |reflexivity].
  split; [assumption|]. cbn [nd_data nd_shape].
  apply accumulate_length; [apply length_replicate|].
  apply shaped_length. assumption.
Qed.

Lemma accumulate_shaped_length (sh : list Z) (outs : list (Consumer A)) :
  Forall (shaped sh) outs ->
  length (accumulate (replicate (Z.to_nat (prod_shape sh)) zero) outs)
  = Z.to_nat (prod_shape sh).
Proof.
  intros Houts. apply accumulate_length; [apply length_replicate|].
  apply shaped_length. assumption.
Qed.

(** Scattering the accumulated gradient is accumulating the scattered
    gradients. *)
Lemma scatter_accumulate (n : nat) (offs : list Z) (acc : list A)
    (outs : list (Consumer A)) :
  add zero zero = zero ->
  NoDup offs ->
  Forall (fun o => 0 <= o < Z.of_nat n) offs ->
  length acc = length offs ->
  Forall (fun out => length (nd_data (getGradient out)) = length offs) outs ->
  scatter n offs (accumulate acc outs) =
    foldl (zip_with add) (scatter n offs acc)
          (map (fun out => scatter n offs (nd_data (getGradient out))) outs).
Proof.
  intros Hz Hnd Hb Hacc Houts. revert acc Hacc.
  induction Houts as [|out outs Hout _ IH]; intros acc Hacc; [reflexivity|].
  cbn [accumulate foldl map]. fold (accumulate (A:=A)).
  change (foldl _ ?a outs) with (accumulate a outs).
  rewrite IH by (rewrite length_zip_with; lia).
  rewrite scatter_zip_with_add by assumption. reflexivity.
Qed.

End slice_gradient_facts.

(** * The claims *)

(** ** Shape inference of the flattening *)

(** C4. For an input of rank at least 2 and shape [(n, d1, ..., dk)],
    [FlattenFeaturesOperation.setShape] succeeds, keeps the leading examples
    dimension [n] (also stored in [nExamples]) and sets the output shape to
    [(n, d1 * ... * dk)]; nothing else of the node changes. *)
Theorem C4_flatten_setShape_rank_ge_2 {A : Type} `{Scalar A}
    (self : FlattenFeaturesOperation.t A) (n : Z) (ds : list Z) :
  op_shape (FlattenFeaturesOperation.inputA self) = n :: ds ->
  (1 <= length ds)%nat ->
  exists self',
    FlattenFeaturesOperation.setShape self = Ok self' /\
    FlattenFeaturesOperation.shape self' = [n; prod_shape ds] /\
    FlattenFeaturesOperation.nExamples self' = n /\
    FlattenFeaturesOperation.inputA self' = FlattenFeaturesOperation.inputA self /\
    FlattenFeaturesOperation.endNode self' = FlattenFeaturesOperation.endNode self /\
    FlattenFeaturesOperation.outputs self' = FlattenFeaturesOperation.outputs self.
Proof.
  intros Hs Hrank. destruct ds as [|d ds]; [simpl in Hrank; lia|].
  eexists. split; [apply flatten_setShape_rank_ge_2; eassumption|].
  repeat split.
Qed.

Lemma C4_witness :
  exists self',
    FlattenFeaturesOperation.setShape
      (flatten_new (A:=float) {| op_shape := [2; 3; 4]; op_result := None |})
    = Ok self' /\
    FlattenFeaturesOperation.shape self' = [2; 12] /\
    FlattenFeaturesOperation.nExamples self' = 2 /\
    FlattenFeaturesOperation.inputA self'
    = {| op_shape := [2; 3; 4]; op_result := None |} /\
    FlattenFeaturesOperation.endNode self' = true /\
    FlattenFeaturesOperation.outputs self' = [].
Proof.
  apply (C4_flatten_setShape_rank_ge_2
           (flatten_new {| op_shape := [2; 3; 4]; op_result := None |})
           2 [3; 4]).
  - reflexivity.
  - simpl. lia.
Defined.

(** C9. For a one-dimensional input of shape [(d,)],
    [FlattenFeaturesOperation.setShape] sets [nExamples] to 1 and the output
    shape to [(1, d)]: the vector is one example of [d] features. *)
Theorem C9_flatten_setShape_rank_1 {A : Type} `{Scalar A}
    (self : FlattenFeaturesOperation.t A) (d : Z) :
  op_shape (FlattenFeaturesOperation.inputA self) = [d] ->
  exists self',
    FlattenFeaturesOperation.setShape self = Ok self' /\
    FlattenFeaturesOperation.nExamples self' = 1 /\
    FlattenFeaturesOperation.shape self' = [1; d].
Proof.
  intros Hs. eexists. split; [apply flatten_setShape_rank_1; eassumption|].
  split; reflexivity.
Qed.

Lemma C9_witness :
  exists self',
    FlattenFeaturesOperation.setShape
      (flatten_new (A:=float) {| op_shape := [5]; op_result := None |})
    = Ok self' /\
    FlattenFeaturesOperation.nExamples self' = 1 /\
    FlattenFeaturesOperation.shape self' = [1; 5].
Proof.
  apply (C9_flatten_setShape_rank_1
           (flatten_new {| op_shape := [5]; op_result := None |}) 5).
  reflexivity.
Defined.

(** ** Shape inference reads shapes only *)

(** C8. The output shape computed by [setShape], or the exception it
    raises, is the same for two nodes of one kind whose inputs have the
    same shape and which were given the same construction-time parameter
    ([exampleShape], [indexExp]); the data held by the inputs, present or
    not, and the rest of the node's state play no part. *)
Theorem C8_setShape_depends_on_shapes_only {A : Type} `{Scalar A}
    (f1 f2 : FlattenFeaturesOperation.t A)
    (r1 r2 : ReshapeFeaturesOperation.t A)
    (s1 s2 : SliceOperation.t A) :
  (op_shape (FlattenFeaturesOperation.inputA f1)
   = op_shape (FlattenFeaturesOperation.inputA f2) ->
   FlattenFeaturesOperation.shape <$> FlattenFeaturesOperation.setShape f1
   = FlattenFeaturesOperation.shape <$> FlattenFeaturesOperation.setShape f2)
  /\
  (op_shape (ReshapeFeaturesOperation.inputA r1)
   = op_shape (ReshapeFeaturesOperation.inputA r2) ->
   ReshapeFeaturesOperation.exampleShape r1
   = ReshapeFeaturesOperation.exampleShape r2 ->
   ReshapeFeaturesOperation.shape <$> ReshapeFeaturesOperation.setShape r1
   = ReshapeFeaturesOperation.shape <$> ReshapeFeaturesOperation.setShape r2)
  /\
  (op_shape (SliceOperation.inputA s1) = op_shape (SliceOperation.inputA s2) ->
   SliceOperation.indexExp s1 = SliceOperation.indexExp s2 ->
   SliceOperation.shape <$> SliceOperation.setShape s1
   = SliceOperation.shape <$> SliceOperation.setShape s2).
Proof.
  split; [|split].
  - intros Hs. rewrite !flatten_setShape_shape, Hs. reflexivity.
  - intros Hs He. rewrite !reshape_setShape_shape, Hs, He. reflexivity.
  - intros Hs Hi. rewrite !slice_setShape_shape, Hs, Hi. reflexivity.
Qed.

Lemma C8_witness :
  let a : ndarray float :=
    {| nd_shape := [2; 2];
       nd_data := [1%float; 2%float; 3%float; 4%float] |} in
  let b : ndarray float :=
    {| nd_shape := [2; 2];
       nd_data := [5%float; 6%float; 7%float; 8%float] |} in
  let in1 := {| op_shape := [2; 2]; op_result := Some a |} in
  let in2 := {| op_shape := [2; 2]; op_result := Some b |} in
  let in3 : Operation float := {| op_shape := [2; 2]; op_result := None |} in
  FlattenFeaturesOperation.shape
    <$> FlattenFeaturesOperation.setShape (flatten_new in1)
  = FlattenFeaturesOperation.shape
    <$> FlattenFeaturesOperation.setShape (flatten_new in2)
  /\
  ReshapeFeaturesOperation.shape
    <$> ReshapeFeaturesOperation.setShape (reshape_new in1 (ShapeTuple [4]))
  = ReshapeFeaturesOperation.shape
    <$> ReshapeFeaturesOperation.setShape (reshape_new in3 (ShapeTuple [4]))
  /\
  SliceOperation.shape
    <$> SliceOperation.setShape (slice_new in1 [Int 0; full_slice])
  = SliceOperation.shape
    <$> SliceOperation.setShape (slice_new in2 [Int 0; full_slice]).
Proof.
  intros a b in1 in2 in3.
  destruct (C8_setShape_depends_on_shapes_only
              (flatten_new in1) (flatten_new in2)
              (reshape_new in1 (ShapeTuple [4]))
              (reshape_new in3 (ShapeTuple [4]))
              (slice_new in1 [Int 0; full_slice])
              (slice_new in2 [Int 0; full_slice])) as (Hf & Hr & Hs).
  split; [|split].
  - apply Hf. reflexivity.
  - apply Hr; reflexivity.
  - apply Hs; reflexivity.
Defined.

(** ** The seed gradient of an end node *)

(** C5. A transformation node whose [endNode] flag is set returns from
    [performGradient] an array of ones of the shape of its input operation,
    whatever its consumers list, index expression or reshape parameter;
    the input shape is an array shape (no negative dimension). *)
Theorem C5_endNode_gradient_is_ones {A : Type} `{Scalar A}
    (f : FlattenFeaturesOperation.t A)
    (r : ReshapeFeaturesOperation.t A)
    (s : SliceOperation.t A) :
  (FlattenFeaturesOperation.endNode f = true ->
   valid_shape (op_shape (FlattenFeaturesOperation.inputA f)) = true ->
   FlattenFeaturesOperation.performGradient f =
     Ok {| nd_shape := op_shape (FlattenFeaturesOperation.inputA f);
           nd_data :=
             replicate
               (Z.to_nat (prod_shape (op_shape (FlattenFeaturesOperation.inputA f))))
               one |})
  /\
  (ReshapeFeaturesOperation.endNode r = true ->
   valid_shape (op_shape (ReshapeFeaturesOperation.inputA r)) = true ->
   ReshapeFeaturesOperation.performGradient r =
     Ok {| nd_shape := op_shape (ReshapeFeaturesOperation.inputA r);
           nd_data :=
             replicate
               (Z.to_nat (prod_shape (op_shape (ReshapeFeaturesOperation.inputA r))))
               one |})
  /\
  (SliceOperation.endNode s = true ->
   valid_shape (op_shape (SliceOperation.inputA s)) = true ->
   SliceOperation.performGradient s =
     Ok {| nd_shape := op_shape (SliceOperation.inputA s);
           nd_data :=
             replicate
               (Z.to_nat (prod_shape (op_shape (SliceOperation.inputA s))))
               one |}).
Proof.
  split; [|split]; intros Hend Hvalid.
  - unfold FlattenFeaturesOperation.performGradient. rewrite Hend.
    apply np_full_ok. assumption.
  - unfold ReshapeFeaturesOperation.performGradient. rewrite Hend.
    apply np_full_ok. assumption.
  - unfold SliceOperation.performGradient. rewrite Hend.
    apply np_full_ok. assumption.
Qed.

Lemma C5_witness :
  let inp : Operation float := {| op_shape := [2; 3]; op_result := None |} in
  let ones : ndarray float :=
    {| nd_shape := [2; 3]; nd_data := replicate 6 1%float |} in
  FlattenFeaturesOperation.performGradient (flatten_new inp) = Ok ones /\
  ReshapeFeaturesOperation.performGradient
    (reshape_new inp (ShapeTuple [3; 1])) = Ok ones /\
  SliceOperation.performGradient (slice_new inp [Int 1; Ellipsis]) = Ok ones.
Proof.
  intros inp ones.
  destruct (C5_endNode_gradient_is_ones
              (flatten_new inp)
              (reshape_new inp (ShapeTuple [3; 1]))
              (slice_new inp [Int 1; Ellipsis])) as (Hf & Hr & Hs).
  split; [|split].
  - apply Hf; reflexivity.
  - apply Hr; reflexivity.
  - apply Hs; reflexivity.
Defined.

(** ** The two reshaping gradients are one function *)

(** C10. [FlattenFeaturesOperation.performGradient] and
    [ReshapeFeaturesOperation.performGradient] return the same result on
    nodes with the same [endNode] flag, the same input shape and the same
    consumers, and that result is the one the specification words: ones of
    the input shape for an end node, otherwise the sum of the consumers'
    gradients, each reshaped to the input shape. *)
Theorem C10_flatten_reshape_same_gradient {A : Type} `{Scalar A}
    (f : FlattenFeaturesOperation.t A) (r : ReshapeFeaturesOperation.t A) :
  FlattenFeaturesOperation.endNode f = ReshapeFeaturesOperation.endNode r ->
  op_shape (FlattenFeaturesOperation.inputA f)
  = op_shape (ReshapeFeaturesOperation.inputA r) ->
  FlattenFeaturesOperation.outputs f = ReshapeFeaturesOperation.outputs r ->
  FlattenFeaturesOperation.performGradient f
  = ReshapeFeaturesOperation.performGradient r /\
  FlattenFeaturesOperation.performGradient f
  = reshaped_gradient_sum (FlattenFeaturesOperation.endNode f)
      (op_shape (FlattenFeaturesOperation.inputA f))
      (FlattenFeaturesOperation.outputs f).
Proof.
  intros Hend Hshape Houts. split.
  - rewrite flatten_performGradient_spec, reshape_performGradient_spec.
    rewrite Hend, Hshape, Houts. reflexivity.
  - apply flatten_performGradient_spec.
Qed.

Lemma C10_witness :
  let inp : Operation float := {| op_shape := [2; 2]; op_result := None |} in
  let g : Consumer float :=
    {| getGradient :=
         {| nd_shape := [1; 4];
            nd_data := [1%float; 2%float; 3%float; 4%float] |} |} in
  let f : FlattenFeaturesOperation.t float :=
    {| FlattenFeaturesOperation.inputA := inp;
       FlattenFeaturesOperation.nExamples := 2;
       FlattenFeaturesOperation.shape := [2; 2];
       FlattenFeaturesOperation.endNode := false;
       FlattenFeaturesOperation.outputs := [g] |} in
  let r : ReshapeFeaturesOperation.t float :=
    {| ReshapeFeaturesOperation.inputA := inp;
       ReshapeFeaturesOperation.exampleShape := ShapeTuple [2; 2];
       ReshapeFeaturesOperation.nExamples := 2;
       ReshapeFeaturesOperation.shape := [2; 2; 2];
       ReshapeFeaturesOperation.endNode := false;
       ReshapeFeaturesOperation.outputs := [g] |} in
  FlattenFeaturesOperation.performGradient f
  = ReshapeFeaturesOperation.performGradient r /\
  FlattenFeaturesOperation.performGradient f
  = reshaped_gradient_sum false [2; 2] [g].
Proof.
  intros inp g f r.
  apply (C10_flatten_reshape_same_gradient f r); reflexivity.
Defined.

(** ** What construction refuses, and how *)

(** C7, as the code has it: for a tuple [exampleShape],
    [ReshapeFeaturesOperation.setShape] compares nothing and always succeeds,
    setting the shape to [(nExamples, ) + exampleShape]; an [exampleShape]
    that is not a tuple is a [TypeError]; an element count that does not
    match is met by [perform], whose [reshape] raises [ValueError]. *)
Theorem C7_reshape_setShape_checks_nothing {A : Type} `{Scalar A}
    (self : ReshapeFeaturesOperation.t A) :
  (forall es,
     ReshapeFeaturesOperation.exampleShape self = ShapeTuple es ->
     exists self',
       ReshapeFeaturesOperation.setShape self = Ok self' /\
       ReshapeFeaturesOperation.shape self'
       = ReshapeFeaturesOperation.nExamples self' :: es /\
       forall a : ndarray A,
         valid_shape (ReshapeFeaturesOperation.shape self') = true ->
         prod_shape (nd_shape a)
         <> prod_shape (ReshapeFeaturesOperation.shape self') ->
         ReshapeFeaturesOperation.perform self' a = Raise ValueError)
  /\
  (forall k,
     ReshapeFeaturesOperation.exampleShape self = ShapeInt k ->
     ReshapeFeaturesOperation.setShape self = Raise TypeError).
Proof.
  split.
  - intros es Hes. eexists. split; [apply reshape_setShape_tuple, Hes|].
    split; [reflexivity|].
    intros a Hvalid Hsize. apply np_reshape_mismatch; assumption.
  - intros k Hk. unfold ReshapeFeaturesOperation.setShape. rewrite Hk.
    destruct (op_shape (ReshapeFeaturesOperation.inputA self))
      as [|n [|d ds]]; reflexivity.
Qed.

Lemma C7_witness :
  exists self',
    ReshapeFeaturesOperation.setShape
      (reshape_new (A:=float) {| op_shape := [2; 3]; op_result := None |}
                   (ShapeTuple [5]))
    = Ok self' /\
    ReshapeFeaturesOperation.shape self' = [2; 5] /\
    ReshapeFeaturesOperation.perform self'
      {| nd_shape := [2; 3]; nd_data := replicate 6 0%float |}
    = Raise ValueError.
Proof.
  destruct (C7_reshape_setShape_checks_nothing
              (reshape_new (A:=float) {| op_shape := [2; 3]; op_result := None |}
                           (ShapeTuple [5])))
    as [Htuple _].
  destruct (Htuple [5] eq_refl) as (self' & Hset & Hshape & Hperform).
  exists self'. split; [exact Hset|]. split.
  - rewrite Hshape. injection Hset as <-. reflexivity.
  - apply Hperform.
    + injection Hset as <-. reflexivity.
    + injection Hset as <-. discriminate.
Defined.

(** C7 fails as stated: an input of shape (2, 3), three elements per
    example, with [exampleShape = (5,)] passes [setShape], which answers the
    shape (2, 5); no exception is raised. *)
Lemma C7_counterexample :
  ReshapeFeaturesOperation.shape
    <$> ReshapeFeaturesOperation.setShape
          (reshape_new (A:=float) {| op_shape := [2; 3]; op_result := None |}
                       (ShapeTuple [5]))
  = Ok [2; 5] /\
  prod_shape [3] <> prod_shape [5] /\
  ReshapeFeaturesOperation.setShape
    (reshape_new (A:=float) {| op_shape := [2; 3]; op_result := None |}
                 (ShapeTuple [5]))
  <> Raise ShapeError.
Proof. split; [reflexivity|]. split; discriminate. Qed.

(** C6, as the code has it: a missing index expression makes the
    constructor raise [ValueError], whatever the input operation, a missing
    one included; an index expression that names more axes than the input
    has makes [setShape], and with it the construction, raise
    [IndexError]. *)
Theorem C6_slice_construction_errors {A : Type} `{Scalar A} :
  (forall inputA : option (Operation A),
     slice_init inputA None = Raise ValueError) /\
  (forall (inputA : Operation A) idx,
     valid_shape (op_shape inputA) = true ->
     (length (op_shape inputA) < length (List.filter consumes_axis idx))%nat ->
     SliceOperation.setShape (slice_new inputA idx) = Raise IndexError /\
     slice_init (Some inputA) (Some idx) = Raise IndexError).
Proof.
  split; [reflexivity|].
  intros inputA idx Hvalid Hrank.
  assert (SliceOperation.setShape (slice_new inputA idx) = Raise IndexError)
    as Hset; [|split; [exact Hset | exact Hset]].
  unfold SliceOperation.setShape, np_zeros. cbn [slice_new SliceOperation.inputA
    SliceOperation.indexExp].
  rewrite np_full_ok, bind_Ok by assumption.
  unfold np_getitem, select, expand_index. cbn [nd_shape].
  destruct (Nat.ltb_spec 1 (length (List.filter is_ellipsis idx)));
    [reflexivity|].
  destruct (Nat.ltb_spec (length (op_shape inputA))
              (length (List.filter consumes_axis idx))); [reflexivity|lia].
Qed.

Lemma C6_witness :
  SliceOperation.setShape
    (slice_new (A:=float) {| op_shape := [2; 2]; op_result := None |}
               [Int 0; full_slice; Int 1])
  = Raise IndexError /\
  slice_init (A:=float) (Some {| op_shape := [2; 2]; op_result := None |})
             (Some [Int 0; full_slice; Int 1])
  = Raise IndexError.
Proof.
  destruct (C6_slice_construction_errors (A:=float)) as [_ Hrank].
  apply Hrank.
  - reflexivity.
  - simpl. lia.
Defined.

(** C6 fails as stated: without an index expression the constructor raises
    [ValueError], and with one index too many for a 2 x 2 input it raises
    [IndexError]; neither is [ShapeError]. *)
Lemma C6_counterexample :
  slice_init (A:=float) (Some {| op_shape := [2; 2]; op_result := None |}) None
  = Raise ValueError /\
  slice_init (A:=float) (Some {| op_shape := [2; 2]; op_result := None |})
             (Some [Int 0; Int 0; Int 0])
  = Raise IndexError /\
  slice_init (A:=float) (Some {| op_shape := [2; 2]; op_result := None |}) None
  <> Raise ShapeError.
Proof. split; [reflexivity|]. split; [reflexivity | discriminate]. Qed.

(** ** Flatten then reshape *)

(** C3, as the code has it: flattening an array and reshaping the result
    with [exampleShape] equal to its per-example shape gives back the same
    array, contents and shape, for every array of rank at least 2, and for
    no other array but the vectors of shape (1,). *)
Theorem C3_flatten_then_reshape_identity {A : Type} `{Scalar A}
    (a : ndarray A) :
  nd_wf a ->
  flatten_then_reshape a (ShapeTuple (per_example_shape a)) = Ok a <->
  (2 <= length (nd_shape a))%nat \/ nd_shape a = [1].
Proof.
  intros [Hvalid _]. destruct a as [s data]. cbn [nd_shape] in Hvalid.
  unfold flatten_then_reshape, per_example_shape. cbn [nd_shape].
  destruct s as [|n [|d ds]].
  - (* rank 0: [setShape] raises *)
    cbn [tail length]. rewrite flatten_setShape_rank_0 by reflexivity.
    split; [discriminate|]. intros [Hrank|Hone]; [lia | discriminate].
  - (* rank 1 *)
    cbn [tail length]. rewrite (flatten_setShape_rank_1 _ n) by reflexivity.
    rewrite bind_Ok.
    rewrite (reshape_setShape_tuple _ []) by reflexivity.
    cbn [flatten_as_input FlattenFeaturesOperation.set_shape
         FlattenFeaturesOperation.shape reshape_new
         ReshapeFeaturesOperation.inputA op_shape].
    cbv zeta. rewrite bind_Ok.
    unfold FlattenFeaturesOperation.perform, ReshapeFeaturesOperation.perform.
    cbn [FlattenFeaturesOperation.shape FlattenFeaturesOperation.set_shape
         ReshapeFeaturesOperation.shape ReshapeFeaturesOperation.set_shape].
    apply valid_shape_cons in Hvalid as [Hn _].
    rewrite np_reshape_ok, bind_Ok;
      [|apply valid_shape_cons; split; [lia|];
        apply valid_shape_cons; split; [assumption | reflexivity]
       |cbn [nd_shape]; rewrite !prod_shape_cons; simpl; ring].
    destruct (decide (n = 1)) as [->|Hne].
    + rewrite np_reshape_ok by reflexivity. split; auto.
    + rewrite np_reshape_mismatch;
        [|reflexivity
         |cbn [nd_shape]; rewrite !prod_shape_cons; simpl; lia].
      split; [discriminate|]. intros [Hrank|Hone]; [lia | congruence].
  - (* rank at least 2 *)
    cbn [tail]. split; [intros _; left; simpl; lia | intros _].
    pose proof Hvalid as Hv. apply valid_shape_cons in Hv as [Hn Hrest].
    rewrite (flatten_setShape_rank_ge_2 _ n d ds) by reflexivity.
    rewrite bind_Ok.
    rewrite (reshape_setShape_tuple _ (d :: ds)) by reflexivity.
    cbn [flatten_as_input FlattenFeaturesOperation.set_shape
         FlattenFeaturesOperation.shape reshape_new
         ReshapeFeaturesOperation.inputA op_shape].
    cbv zeta. rewrite bind_Ok.
    unfold FlattenFeaturesOperation.perform, ReshapeFeaturesOperation.perform.
    cbn [FlattenFeaturesOperation.shape FlattenFeaturesOperation.set_shape
         ReshapeFeaturesOperation.shape ReshapeFeaturesOperation.set_shape].
    pose proof (prod_shape_nonneg _ Hrest) as Hp.
    rewrite np_reshape_ok, bind_Ok.
    + rewrite np_reshape_ok; [reflexivity | assumption |].
      cbn [nd_shape]. rewrite !prod_shape_cons. simpl. ring.
    + apply valid_shape_cons. split; [assumption|].
      apply valid_shape_cons. split; [assumption | reflexivity].
    + cbn [nd_shape]. rewrite !prod_shape_cons. simpl. ring.
Qed.

Lemma C3_witness :
  flatten_then_reshape
    {| nd_shape := [2; 2; 3];
       nd_data := [1%float; 2%float; 3%float; 4%float; 5%float; 6%float;
                   7%float; 8%float; 9%float; 10%float; 11%float; 12%float] |}
    (ShapeTuple [2; 3])
  = Ok {| nd_shape := [2; 2; 3];
          nd_data := [1%float; 2%float; 3%float; 4%float; 5%float; 6%float;
                      7%float; 8%float; 9%float; 10%float; 11%float; 12%float] |}.
Proof.
  apply (C3_flatten_then_reshape_identity
           {| nd_shape := [2; 2; 3];
              nd_data := [1%float; 2%float; 3%float; 4%float; 5%float; 6%float;
                          7%float; 8%float; 9%float; 10%float; 11%float;
                          12%float] |}).
  - split; reflexivity.
  - left. simpl. lia.
Defined.

(** C3 fails as stated on a vector: the array [1, 2] of shape (2,) is
    flattened to shape (1, 2), and reshaping with the vector's own shape as
    [exampleShape] leaves it at (1, 2), with the empty per-example shape
    [reshape] raises; the original shape (2,) does not come back. *)
Lemma C3_counterexample :
  flatten_then_reshape
    {| nd_shape := [2]; nd_data := [1%float; 2%float] |} (ShapeTuple [2])
  = Ok {| nd_shape := [1; 2]; nd_data := [1%float; 2%float] |} /\
  flatten_then_reshape
    {| nd_shape := [2]; nd_data := [1%float; 2%float] |} (ShapeTuple [])
  = Raise ValueError /\
  flatten_then_reshape
    {| nd_shape := [2]; nd_data := [1%float; 2%float] |} (ShapeTuple [2])
  <> Ok {| nd_shape := [2]; nd_data := [1%float; 2%float] |}.
Proof. split; [reflexivity|]. split; [reflexivity | discriminate]. Qed.

(** ** The slice gradient is the adjoint of the gather *)

(** C1. A slice node that is not an end node, whose shape was set by
    [setShape] and whose consumers hand back gradients of that shape,
    returns from [performGradient] an array of the input's shape in which
    the accumulated gradient (the running sum of the consumers' gradients
    over zeros) sits at the positions the index expression selects (the
    very positions [perform] reads, all distinct) and every other position
    is zero.  For [[0, :]] on a 2 x 2 input and one consumer with a gradient
    of ones the result is [[1, 1], [0, 0]]. *)
Theorem C1_slice_gradient_scatters :
  (forall (A : Type) (HA : Scalar A) (self : SliceOperation.t A),
     SliceOperation.setShape self = Ok self ->
     SliceOperation.endNode self = false ->
     Forall (shaped (SliceOperation.shape self)) (SliceOperation.outputs self) ->
     exists offs grad,
       select (op_shape (SliceOperation.inputA self))
              (SliceOperation.indexExp self)
       = Ok (SliceOperation.shape self, offs) /\
       (forall a : ndarray A,
          nd_shape a = op_shape (SliceOperation.inputA self) ->
          SliceOperation.perform self a =
            Ok {| nd_shape := SliceOperation.shape self;
                  nd_data := map (read (nd_data a)) offs |}) /\
       NoDup offs /\
       SliceOperation.performGradient self = Ok grad /\
       nd_shape grad = op_shape (SliceOperation.inputA self) /\
       length (nd_data grad)
       = Z.to_nat (prod_shape (op_shape (SliceOperation.inputA self))) /\
       length (accumulate (replicate (length offs) zero)
                          (SliceOperation.outputs self))
       = length offs /\
       (forall k o,
          offs !! k = Some o ->
          0 <= o < prod_shape (op_shape (SliceOperation.inputA self)) /\
          nd_data grad !! Z.to_nat o
          = accumulate (replicate (length offs) zero)
                       (SliceOperation.outputs self) !! k) /\
       (forall p,
          (p < Z.to_nat (prod_shape (op_shape (SliceOperation.inputA self))))%nat ->
          Z.of_nat p ∉ offs ->
          nd_data grad !! p = Some zero))
  /\
  (SliceOperation.setShape example_slice = Ok example_slice /\
   SliceOperation.performGradient example_slice
   = Ok {| nd_shape := [2; 2];
           nd_data := [1%float; 1%float; 0%float; 0%float] |}).
Proof.
  split; [|split; reflexivity].
  intros A HA self Hset Hend Houts.
  destruct (slice_setShape_fixed self Hset) as (Hin & offs & Hsel).
  destruct (select_spec _ _ _ _ Hin Hsel) as (Hsh & Hlen & Hnd & Hb).
  pose proof (prod_shape_nonneg _ Hin) as Hpos.
  assert (Forall (fun o => 0 <= o
            < Z.of_nat (Z.to_nat (prod_shape (op_shape (SliceOperation.inputA self)))))
            offs) as Hb'.
  { eapply list.Forall_impl; [exact Hb|]. simpl. intros o Ho. lia. }
  pose proof (accumulate_shaped_length _ _ Houts) as Hacc.
  rewrite <- Hlen in Hacc.
  exists offs. eexists.
  split; [exact Hsel|]. split.
  { intros a Ha. unfold SliceOperation.perform, np_getitem.
    rewrite Ha, Hsel. reflexivity. }
  split; [exact Hnd|]. split.
  { apply (slice_performGradient_ok self (SliceOperation.shape self) offs);
      try assumption. reflexivity. }
  cbn [nd_shape nd_data]. split; [reflexivity|].
  split; [apply scatter_length|].
  rewrite <- Hlen. split; [exact Hacc|]. split.
  - intros k o Hk. split.
    + rewrite list.Forall_forall in Hb. apply Hb.
      eapply list_elem_of_lookup_2, Hk.
    + apply scatter_selected; assumption.
  - intros p Hp Hnot. apply scatter_unselected; assumption.
Qed.

Lemma C1_witness :
  let self := example_slice in
  exists offs grad,
    select [2; 2] example_index = Ok ([2], offs) /\
    (forall a : ndarray float,
       nd_shape a = [2; 2] ->
       SliceOperation.perform self a =
         Ok {| nd_shape := [2]; nd_data := map (read (nd_data a)) offs |}) /\
    NoDup offs /\
    SliceOperation.performGradient self = Ok grad /\
    nd_shape grad = [2; 2] /\
    length (nd_data grad) = 4%nat /\
    length (accumulate (replicate (length offs) zero) [example_ones])
    = length offs /\
    (forall k o,
       offs !! k = Some o ->
       0 <= o < 4 /\
       nd_data grad !! Z.to_nat o
       = accumulate (replicate (length offs) zero) [example_ones] !! k) /\
    (forall p,
       (p < 4)%nat -> Z.of_nat p ∉ offs -> nd_data grad !! p = Some zero).
Proof.
  intros self.
  destruct C1_slice_gradient_scatters as [Hgeneral _].
  apply (Hgeneral float float64_scalar self).
  - reflexivity.
  - reflexivity.
  - repeat constructor.
Defined.

(** ** Fan-out: the gradient is the sum of the consumers' contributions *)

Lemma float64_add_seeded (x y : float) :
  PrimFloat.add (PrimFloat.add 0%float x) (PrimFloat.add 0%float y)
  = PrimFloat.add (PrimFloat.add 0%float x) y.
Proof.
  apply Prim2SF_inj. rewrite !add_spec.
  change (Prim2SF 0%float) with (S754_zero false).
  destruct (Prim2SF x) as [sx|sx| |sx mx ex], (Prim2SF y) as [sy|sy| |sy my ey];
    try reflexivity;
    try (destruct sx; reflexivity);
    try (destruct sy; reflexivity);
    try (destruct sx, sy; reflexivity).
Qed.

(** The accumulation laws hold for NumPy's float64. *)
#[global] Instance float64_zero_seed : ZeroSeed float.
Proof. constructor; [reflexivity | exact float64_add_seeded]. Qed.

Section fan_out_facts.
Context {A : Type} `{Scalar A}.

Lemma accumulate_as_sum (acc : list A) (outs : list (Consumer A)) :
  accumulate acc outs =
    foldl (zip_with add) acc (map (fun out => nd_data (getGradient out)) outs).
Proof.
  revert acc. induction outs as [|out outs IH]; intros acc; [reflexivity|].
  simpl. apply IH.
Qed.

Lemma reshaped_contributions (inShape : list Z) (outs : list (Consumer A)) :
  valid_shape inShape = true ->
  Forall (fits inShape) outs ->
  Forall2 (fun out c => reshaped_contribution inShape out = Ok c) outs
    (map (fun out => {| nd_shape := inShape;
                        nd_data := nd_data (getGradient out) |}) outs).
Proof.
  intros Hin Houts. induction Houts as [|out outs [Hwf Hsz] _ IH];
    constructor; [|exact IH].
  unfold reshaped_contribution. apply np_reshape_ok; assumption.
Qed.

Lemma scattered_contributions (inShape : list Z) (idx : list index)
    (sh offs : list Z) (outs : list (Consumer A)) :
  valid_shape inShape = true ->
  select inShape idx = Ok (sh, offs) ->
  Forall (shaped sh) outs ->
  Forall2 (fun out c => scattered_contribution inShape idx out = Ok c) outs
    (map (fun out =>
            {| nd_shape := inShape;
               nd_data := scatter (Z.to_nat (prod_shape inShape)) offs
                            (nd_data (getGradient out)) |}) outs).
Proof.
  intros Hin Hsel Houts. induction Houts as [|out outs [Hwf Hsh] _ IH];
    constructor; [|exact IH].
  unfold scattered_contribution, np_zeros.
  rewrite np_full_ok, bind_Ok by assumption.
  rewrite (np_setitem_same _ _ _ sh offs) by assumption. reflexivity.
Qed.

(** The positions of a view, as positions of the flat input. *)
Lemma select_positions (inShape : list Z) (idx : list index)
    (sh offs : list Z) :
  valid_shape inShape = true ->
  select inShape idx = Ok (sh, offs) ->
  NoDup offs /\
  Forall (fun o => 0 <= o < Z.of_nat (Z.to_nat (prod_shape inShape))) offs /\
  length offs = Z.to_nat (prod_shape sh).
Proof.
  intros Hin Hsel.
  destruct (select_spec _ _ _ _ Hin Hsel) as (_ & Hlen & Hnd & Hb).
  pose proof (prod_shape_nonneg _ Hin).
  split; [assumption|]. split; [|assumption].
  eapply list.Forall_impl; [exact Hb|]. simpl. intros o Ho. lia.
Qed.

Lemma slice_performGradient_sum `{!ZeroSeed A} (self : SliceOperation.t A)
    (sh offs : list Z) :
  valid_shape (op_shape (SliceOperation.inputA self)) = true ->
  select (op_shape (SliceOperation.inputA self)) (SliceOperation.indexExp self)
  = Ok (sh, offs) ->
  SliceOperation.shape self = sh ->
  SliceOperation.endNode self = false ->
  Forall (shaped sh) (SliceOperation.outputs self) ->
  SliceOperation.performGradient self =
    Ok {| nd_shape := op_shape (SliceOperation.inputA self);
          nd_data :=
            sum_arrays
              (Z.to_nat (prod_shape (op_shape (SliceOperation.inputA self))))
              (map (fun out =>
                      scatter
                        (Z.to_nat (prod_shape (op_shape (SliceOperation.inputA self))))
                        offs (nd_data (getGradient out)))
                   (SliceOperation.outputs self)) |}.
Proof.
  intros Hin Hsel Hshape Hend Houts.
  destruct (select_positions _ _ _ _ Hin Hsel) as (Hnd & Hb & Hlen).
  rewrite (slice_performGradient_ok self sh offs) by assumption.
  f_equal. f_equal. unfold sum_arrays. rewrite <- Hlen.
  rewrite scatter_accumulate; try assumption.
  - rewrite scatter_zeros by assumption. reflexivity.
  - apply add_zero_zero.
  - apply length_replicate.
  - rewrite Hlen. apply shaped_length. assumption.
Qed.

End fan_out_facts.

Section two_consumers_facts.
Context {A : Type} `{Scalar A} `{!ZeroSeed A}.

(** Two consumers, for the accumulation over reshaped gradients. *)
Lemma accumulate_two (n : nat) (c1 c2 : Consumer A) :
  accumulate (replicate n zero) [c1; c2] =
    zip_with add (accumulate (replicate n zero) [c1])
                 (accumulate (replicate n zero) [c2]).
Proof.
  unfold accumulate. cbn [foldl]. rewrite zip_with_seeded. reflexivity.
Qed.

(** Two consumers, for the scattering of the accumulated gradient. *)
Lemma scatter_accumulate_two (n : nat) (offs : list Z) (c1 c2 : Consumer A) :
  NoDup offs ->
  Forall (fun o => 0 <= o < Z.of_nat n) offs ->
  length (nd_data (getGradient c1)) = length offs ->
  length (nd_data (getGradient c2)) = length offs ->
  scatter n offs (accumulate (replicate (length offs) zero) [c1; c2]) =
    zip_with add
      (scatter n offs (accumulate (replicate (length offs) zero) [c1]))
      (scatter n offs (accumulate (replicate (length offs) zero) [c2])).
Proof.
  intros Hnd Hb H1 H2. unfold accumulate. cbn [foldl].
  rewrite <- scatter_zip_with_add;
    rewrite ?length_zip_with, ?length_replicate; try assumption; try lia.
  - rewrite zip_with_seeded. reflexivity.
  - apply add_zero_zero.
Qed.

Lemma shaped_data_length (sh : list Z) (c : Consumer A) :
  shaped sh c ->
  length (nd_data (getGradient c)) = Z.to_nat (prod_shape sh).
Proof. intros [[_ Hlen] Hsh]. rewrite Hlen, Hsh. reflexivity. Qed.

End two_consumers_facts.

(** C2. In an arithmetic with the laws of [ZeroSeed] (exact arithmetic,
    IEEE 754 binary64), for a transformation node that is not an end node
    and whose consumers hand back gradients that fit, [performGradient]
    returns the elementwise sum, over the consumers in order, of each
    consumer's contribution brought to the input's shape: reshaped for
    Flatten and Reshape, scattered at the index positions for Slice.  With
    two consumers the gradient is the elementwise sum of the gradients the
    node computes with either consumer alone. *)
Theorem C2_fan_out_is_summation {A : Type} `{Scalar A} `{!ZeroSeed A} :
  (forall f : FlattenFeaturesOperation.t A,
     FlattenFeaturesOperation.endNode f = false ->
     valid_shape (op_shape (FlattenFeaturesOperation.inputA f)) = true ->
     Forall (fits (op_shape (FlattenFeaturesOperation.inputA f)))
            (FlattenFeaturesOperation.outputs f) ->
     exists contribs,
       Forall2 (fun out c =>
                  reshaped_contribution
                    (op_shape (FlattenFeaturesOperation.inputA f)) out = Ok c)
               (FlattenFeaturesOperation.outputs f) contribs /\
       FlattenFeaturesOperation.performGradient f =
         Ok {| nd_shape := op_shape (FlattenFeaturesOperation.inputA f);
               nd_data :=
                 sum_arrays
                   (Z.to_nat (prod_shape (op_shape (FlattenFeaturesOperation.inputA f))))
                   (map nd_data contribs) |})
  /\
  (forall r : ReshapeFeaturesOperation.t A,
     ReshapeFeaturesOperation.endNode r = false ->
     valid_shape (op_shape (ReshapeFeaturesOperation.inputA r)) = true ->
     Forall (fits (op_shape (ReshapeFeaturesOperation.inputA r)))
            (ReshapeFeaturesOperation.outputs r) ->
     exists contribs,
       Forall2 (fun out c =>
                  reshaped_contribution
                    (op_shape (ReshapeFeaturesOperation.inputA r)) out = Ok c)
               (ReshapeFeaturesOperation.outputs r) contribs /\
       ReshapeFeaturesOperation.performGradient r =
         Ok {| nd_shape := op_shape (ReshapeFeaturesOperation.inputA r);
               nd_data :=
                 sum_arrays
                   (Z.to_nat (prod_shape (op_shape (ReshapeFeaturesOperation.inputA r))))
                   (map nd_data contribs) |})
  /\
  (forall s : SliceOperation.t A,
     SliceOperation.setShape s = Ok s ->
     SliceOperation.endNode s = false ->
     Forall (shaped (SliceOperation.shape s)) (SliceOperation.outputs s) ->
     exists contribs,
       Forall2 (fun out c =>
                  scattered_contribution
                    (op_shape (SliceOperation.inputA s))
                    (SliceOperation.indexExp s) out = Ok c)
               (SliceOperation.outputs s) contribs /\
       SliceOperation.performGradient s =
         Ok {| nd_shape := op_shape (SliceOperation.inputA s);
               nd_data :=
                 sum_arrays
                   (Z.to_nat (prod_shape (op_shape (SliceOperation.inputA s))))
                   (map nd_data contribs) |})
  /\
  (forall (inp : Operation A) (n : Z) (sh : list Z) (c1 c2 : Consumer A),
     let node outs :=
       {| FlattenFeaturesOperation.inputA := inp;
          FlattenFeaturesOperation.nExamples := n;
          FlattenFeaturesOperation.shape := sh;
          FlattenFeaturesOperation.endNode := false;
          FlattenFeaturesOperation.outputs := outs |} in
     valid_shape (op_shape inp) = true ->
     fits (op_shape inp) c1 ->
     fits (op_shape inp) c2 ->
     exists g1 g2,
       FlattenFeaturesOperation.performGradient (node [c1]) = Ok g1 /\
       FlattenFeaturesOperation.performGradient (node [c2]) = Ok g2 /\
       FlattenFeaturesOperation.performGradient (node [c1; c2])
       = Ok {| nd_shape := op_shape inp;
               nd_data := zip_with add (nd_data g1) (nd_data g2) |})
  /\
  (forall (inp : Operation A) (es : shape_arg) (n : Z) (sh : list Z)
          (c1 c2 : Consumer A),
     let node outs :=
       {| ReshapeFeaturesOperation.inputA := inp;
          ReshapeFeaturesOperation.exampleShape := es;
          ReshapeFeaturesOperation.nExamples := n;
          ReshapeFeaturesOperation.shape := sh;
          ReshapeFeaturesOperation.endNode := false;
          ReshapeFeaturesOperation.outputs := outs |} in
     valid_shape (op_shape inp) = true ->
     fits (op_shape inp) c1 ->
     fits (op_shape inp) c2 ->
     exists g1 g2,
       ReshapeFeaturesOperation.performGradient (node [c1]) = Ok g1 /\
       ReshapeFeaturesOperation.performGradient (node [c2]) = Ok g2 /\
       ReshapeFeaturesOperation.performGradient (node [c1; c2])
       = Ok {| nd_shape := op_shape inp;
               nd_data := zip_with add (nd_data g1) (nd_data g2) |})
  /\
  (forall (inp : Operation A) (idx : list index) (sh : list Z)
          (c1 c2 : Consumer A),
     let node outs :=
       {| SliceOperation.inputA := inp;
          SliceOperation.indexExp := idx;
          SliceOperation.shape := sh;
          SliceOperation.endNode := false;
          SliceOperation.outputs := outs |} in
     SliceOperation.setShape (node []) = Ok (node []) ->
     shaped sh c1 ->
     shaped sh c2 ->
     exists g1 g2,
       SliceOperation.performGradient (node [c1]) = Ok g1 /\
       SliceOperation.performGradient (node [c2]) = Ok g2 /\
       SliceOperation.performGradient (node [c1; c2])
       = Ok {| nd_shape := op_shape inp;
               nd_data := zip_with add (nd_data g1) (nd_data g2) |}).
Proof.
  repeat apply conj.
  - intros f Hend Hin Houts. eexists.
    split; [apply reshaped_contributions; assumption|].
    rewrite flatten_performGradient_sum by assumption.
    rewrite accumulate_as_sum, List.map_map. reflexivity.
  - intros r Hend Hin Houts. eexists.
    split; [apply reshaped_contributions; assumption|].
    rewrite reshape_performGradient_sum by assumption.
    rewrite accumulate_as_sum, List.map_map. reflexivity.
  - intros s Hset Hend Houts.
    destruct (slice_setShape_fixed s Hset) as (Hin & offs & Hsel).
    eexists.
    split; [apply (scattered_contributions _ _ (SliceOperation.shape s) offs);
            assumption|].
    rewrite (slice_performGradient_sum s (SliceOperation.shape s) offs)
      by (assumption || reflexivity).
    rewrite List.map_map. reflexivity.
  - intros inp n sh c1 c2 node Hin H1 H2.
    do 2 eexists.
    rewrite !flatten_performGradient_sum; try reflexivity; try assumption;
      repeat first [apply List.Forall_nil
                   |apply List.Forall_cons; [assumption|]].
    split; [reflexivity|]. split; [reflexivity|].
    cbn [node FlattenFeaturesOperation.outputs FlattenFeaturesOperation.inputA
         nd_data].
    rewrite accumulate_two. reflexivity.
  - intros inp es n sh c1 c2 node Hin H1 H2.
    do 2 eexists.
    rewrite !reshape_performGradient_sum; try reflexivity; try assumption;
      repeat first [apply List.Forall_nil
                   |apply List.Forall_cons; [assumption|]].
    split; [reflexivity|]. split; [reflexivity|].
    cbn [node ReshapeFeaturesOperation.outputs ReshapeFeaturesOperation.inputA
         nd_data].
    rewrite accumulate_two. reflexivity.
  - intros inp idx sh c1 c2 node Hset H1 H2.
    destruct (slice_setShape_fixed _ Hset) as (Hin & offs & Hsel).
    cbn [node SliceOperation.inputA SliceOperation.indexExp
         SliceOperation.shape] in Hin, Hsel.
    destruct (select_positions _ _ _ _ Hin Hsel) as (Hnd & Hb & Hlen).
    do 2 eexists.
    rewrite !(slice_performGradient_ok _ sh offs);
      try reflexivity; try assumption;
      repeat first [apply List.Forall_nil
                   |apply List.Forall_cons; [assumption|]].
    split; [reflexivity|]. split; [reflexivity|].
    cbn [node SliceOperation.outputs SliceOperation.inputA nd_data].
    rewrite <- Hlen.
    rewrite scatter_accumulate_two; [reflexivity|assumption|assumption| |];
      rewrite Hlen; apply shaped_data_length; assumption.
Qed.

Lemma C2_witness :
  let node outs : SliceOperation.t float :=
    {| SliceOperation.inputA := example_input;
       SliceOperation.indexExp := example_index;
       SliceOperation.shape := [2];
       SliceOperation.endNode := false;
       SliceOperation.outputs := outs |} in
  let other : Consumer float :=
    {| getGradient := {| nd_shape := [2];
                         nd_data := [2%float; (-0)%float] |} |} in
  exists g1 g2,
    SliceOperation.performGradient (node [example_ones]) = Ok g1 /\
    SliceOperation.performGradient (node [other]) = Ok g2 /\
    SliceOperation.performGradient (node [example_ones; other])
    = Ok {| nd_shape := [2; 2];
            nd_data := zip_with add (nd_data g1) (nd_data g2) |}.
Proof.
  intros node other.
  destruct (C2_fan_out_is_summation (A:=float))
    as (_ & _ & _ & _ & _ & Hslice).
  apply (Hslice example_input example_index [2] example_ones other).
  - reflexivity.
  - split; [split; reflexivity | reflexivity].
  - split; [split; reflexivity | reflexivity].
Defined.

(** * Further properties of the code *)

(** ** Reshaping is pure reindexing *)

Section reshape_facts.
Context {A : Type} `{Scalar A}.

Lemma no_negative_valid (s : list Z) :
  length (filter (fun d => d < 0) s) = 0%nat -> valid_shape s = true.
Proof.
  induction s as [|d s IH]; [reflexivity|].
  destruct (decide (d < 0)) as [Hneg|Hpos].
  - rewrite filter_cons_True by assumption. discriminate.
  - rewrite filter_cons_False by assumption. intros Hs.
    apply valid_shape_cons. split; [lia | auto].
Qed.

Lemma valid_no_negative (s : list Z) :
  valid_shape s = true -> length (filter (fun d => d < 0) s) = 0%nat.
Proof. intros Hs. rewrite filter_valid_neg by assumption. reflexivity. Qed.

(** The shape with its unknown dimensions replaced by [q]. *)
Lemma inferred_shape_prod (q : Z) (s : list Z) :
  prod_shape (map (fun d => if d <? 0 then q else d) s)
  = prod_shape (filter (fun d => 0 <= d) s)
    * q ^ Z.of_nat (length (filter (fun d => d < 0) s)).
Proof.
  induction s as [|d s IH]; [reflexivity|].
  cbn [map]. rewrite prod_shape_cons, IH.
  destruct (Z.ltb_spec d 0) as [Hneg|Hpos].
  - rewrite (filter_cons_True (fun d => d < 0)) by assumption.
    rewrite (filter_cons_False (fun d => 0 <= d)) by lia.
    cbn [length]. rewrite Nat2Z.inj_succ, Z.pow_succ_r by lia. ring.
  - rewrite (filter_cons_False (fun d => d < 0)) by lia.
    rewrite (filter_cons_True (fun d => 0 <= d)) by assumption.
    rewrite prod_shape_cons. ring.
Qed.

Lemma inferred_shape_valid (q : Z) (s : list Z) :
  0 <= q -> valid_shape (map (fun d => if d <? 0 then q else d) s) = true.
Proof.
  intros Hq. induction s as [|d s IH]; [reflexivity|].
  cbn [map]. apply valid_shape_cons. split; [|exact IH].
  destruct (Z.ltb_spec d 0); lia.
Qed.

Lemma filter_nonneg_valid (s : list Z) :
  valid_shape (filter (fun d => 0 <= d) s) = true.
Proof.
  induction s as [|d s IH]; [reflexivity|].
  destruct (decide (0 <= d)).
  - rewrite filter_cons_True by assumption.
    apply valid_shape_cons. auto.
  - rewrite filter_cons_False by assumption. exact IH.
Qed.

(** What a successful [reshape] returns: the same elements in the same
    order under a shape without negative entry and of the same element
    count, which is the requested shape exactly when that one has no
    negative entry. *)
Lemma np_reshape_Ok_inv (a b : ndarray A) (s : list Z) :
  valid_shape (nd_shape a) = true ->
  np_reshape a s = Ok b ->
  nd_data b = nd_data a /\
  valid_shape (nd_shape b) = true /\
  prod_shape (nd_shape b) = prod_shape (nd_shape a) /\
  (nd_shape b = s <-> valid_shape s = true).
Proof.
  intros Ha. unfold np_reshape.
  pose proof (prod_shape_nonneg _ Ha) as Hsize.
  pose proof (prod_shape_nonneg _ (filter_nonneg_valid s)) as Hknown.
  pose proof (inferred_shape_prod
                (prod_shape (nd_shape a)
                 / prod_shape (filter (fun d => 0 <= d) s)) s) as Hprod.
  destruct (length (filter (fun d => d < 0) s)) as [|[|k]] eqn:Hneg;
    [| |discriminate].
  - pose proof (no_negative_valid s Hneg) as Hs.
    destruct (Z.eqb_spec (prod_shape (nd_shape a))
                (prod_shape (filter (fun d => 0 <= d) s))) as [Heq|];
      [|discriminate].
    intros [= <-]. cbn [nd_data nd_shape].
    rewrite filter_valid_nonneg in Heq by assumption.
    repeat split; auto.
  - destruct (Z.eqb_spec (prod_shape (filter (fun d => 0 <= d) s)) 0)
      as [|Hnz]; [discriminate|].
    destruct (Z.eqb_spec (prod_shape (nd_shape a)
                          mod prod_shape (filter (fun d => 0 <= d) s)) 0)
      as [Hdiv|]; [|discriminate].
    cbn [negb orb]. intros [= <-]. cbn [nd_data nd_shape].
    assert (0 <= prod_shape (nd_shape a)
                 / prod_shape (filter (fun d => 0 <= d) s)) as Hq
      by (apply Z.div_pos; lia).
    pose proof (inferred_shape_valid _ s Hq) as Hvalid.
    split; [reflexivity|]. split; [exact Hvalid|]. split.
    + rewrite Hprod. change (Z.of_nat 1) with 1. rewrite Z.pow_1_r.
      pose proof (Z.div_mod (prod_shape (nd_shape a))
                    (prod_shape (filter (fun d => 0 <= d) s)) Hnz). lia.
    + split.
      * intros Heq. rewrite Heq in Hvalid. exact Hvalid.
      * intros Hs. apply valid_no_negative in Hs. congruence.
Qed.

End reshape_facts.

(** ** Calling [setShape] again changes nothing *)

(** X1. [setShape] is idempotent for the three operations: on the node it
    returned it succeeds and returns that node unchanged, so the second
    call that [ReshapeFeaturesOperation.__init__] makes after the inherited
    constructor, or any later call, leaves shape and [nExamples] as they
    are. *)
Theorem X1_setShape_idempotent {A : Type} `{Scalar A}
    (f f' : FlattenFeaturesOperation.t A)
    (r r' : ReshapeFeaturesOperation.t A)
    (s s' : SliceOperation.t A) :
  (FlattenFeaturesOperation.setShape f = Ok f' ->
   FlattenFeaturesOperation.setShape f' = Ok f') /\
  (ReshapeFeaturesOperation.setShape r = Ok r' ->
   ReshapeFeaturesOperation.setShape r' = Ok r') /\
  (SliceOperation.setShape s = Ok s' ->
   SliceOperation.setShape s' = Ok s').
Proof.
  split; [|split].
  - destruct (op_shape (FlattenFeaturesOperation.inputA f))
      as [|n [|d ds]] eqn:Hs.
    + rewrite flatten_setShape_rank_0 by assumption. discriminate.
    + rewrite (flatten_setShape_rank_1 f n) by assumption. intros [= <-].
      rewrite (flatten_setShape_rank_1 _ n) by assumption. reflexivity.
    + rewrite (flatten_setShape_rank_ge_2 f n d ds) by assumption.
      intros [= <-].
      rewrite (flatten_setShape_rank_ge_2 _ n d ds) by assumption.
      reflexivity.
  - destruct (ReshapeFeaturesOperation.exampleShape r) as [es|k] eqn:He.
    + rewrite (reshape_setShape_tuple r es) by assumption. intros [= <-].
      rewrite (reshape_setShape_tuple _ es) by assumption. reflexivity.
    + unfold ReshapeFeaturesOperation.setShape. rewrite He.
      destruct (op_shape (ReshapeFeaturesOperation.inputA r))
        as [|n [|d ds]]; discriminate.
  - unfold SliceOperation.setShape.
    destruct (np_zeros (op_shape (SliceOperation.inputA s)))
      as [testMat|e] eqn:Hz; [|discriminate].
    rewrite bind_Ok.
    destruct (np_getitem testMat (SliceOperation.indexExp s))
      as [res|e] eqn:Hget; [|discriminate].
    rewrite bind_Ok. intros [= <-].
    cbn [SliceOperation.set_shape SliceOperation.inputA
         SliceOperation.indexExp].
    rewrite Hz, bind_Ok, Hget, bind_Ok. reflexivity.
Qed.

Lemma X1_witness :
  SliceOperation.setShape example_slice = Ok example_slice /\
  FlattenFeaturesOperation.setShape
    {| FlattenFeaturesOperation.inputA := example_input;
       FlattenFeaturesOperation.nExamples := 2;
       FlattenFeaturesOperation.shape := [2; 2];
       FlattenFeaturesOperation.endNode := true;
       FlattenFeaturesOperation.outputs := [] |}
  = Ok {| FlattenFeaturesOperation.inputA := example_input;
          FlattenFeaturesOperation.nExamples := 2;
          FlattenFeaturesOperation.shape := [2; 2];
          FlattenFeaturesOperation.endNode := true;
          FlattenFeaturesOperation.outputs := [] |}.
Proof.
  destruct (X1_setShape_idempotent
              (flatten_new example_input)
              {| FlattenFeaturesOperation.inputA := example_input;
                 FlattenFeaturesOperation.nExamples := 2;
                 FlattenFeaturesOperation.shape := [2; 2];
                 FlattenFeaturesOperation.endNode := true;
                 FlattenFeaturesOperation.outputs := [] |}
              (reshape_new example_input (ShapeTuple [2]))
              (reshape_new example_input (ShapeTuple [2]))
              (SliceOperation.set_shape example_slice [])
              example_slice) as (Hf & _ & Hs).
  split; [apply Hs | apply Hf]; reflexivity.
Defined.

(** ** The forward pass of the reshaping operations *)

(** X2. The forward pass of [FlattenFeaturesOperation] and of
    [ReshapeFeaturesOperation] is pure reindexing: whenever it succeeds on
    an array, whatever the node's shape (an inferred dimension included),
    the result holds the same elements in the same order, is a well-formed
    array, and has as many elements as the input. *)
Theorem X2_perform_keeps_the_elements {A : Type} `{Scalar A}
    (f : FlattenFeaturesOperation.t A) (r : ReshapeFeaturesOperation.t A)
    (a b : ndarray A) :
  nd_wf a ->
  (FlattenFeaturesOperation.perform f a = Ok b \/
   ReshapeFeaturesOperation.perform r a = Ok b) ->
  nd_data b = nd_data a /\
  nd_wf b /\
  prod_shape (nd_shape b) = prod_shape (nd_shape a).
Proof.
  intros [Hvalid Hlen] Hperform.
  assert (exists s, np_reshape a s = Ok b) as [s Hs].
  { destruct Hperform as [Hp|Hp]; eexists; exact Hp. }
  destruct (np_reshape_Ok_inv a b s Hvalid Hs) as (Hd & Hv & Hp & _).
  split; [exact Hd|]. split; [|exact Hp].
  split; [exact Hv|]. rewrite Hd, Hp. exact Hlen.
Qed.

Lemma X2_witness :
  let a : ndarray float :=
    {| nd_shape := [2; 6]; nd_data := replicate 12 1%float |} in
  let b : ndarray float :=
    {| nd_shape := [3; 4]; nd_data := replicate 12 1%float |} in
  nd_data b = nd_data a /\
  nd_wf b /\
  prod_shape (nd_shape b) = prod_shape (nd_shape a).
Proof.
  intros a b.
  apply (X2_perform_keeps_the_elements
           (flatten_new example_input)
           {| ReshapeFeaturesOperation.inputA := example_input;
              ReshapeFeaturesOperation.exampleShape := ShapeTuple [-1];
              ReshapeFeaturesOperation.nExamples := 3;
              ReshapeFeaturesOperation.shape := [3; -1];
              ReshapeFeaturesOperation.endNode := true;
              ReshapeFeaturesOperation.outputs := [] |} a b).
  - split; reflexivity.
  - right. reflexivity.
Defined.

(** X3. The [shape] attribute of a reshaping node is the shape of what
    [perform] returns exactly when it has no negative entry: an
    [exampleShape] with an unknown dimension is stored as it is, and the
    arrays the node produces have another shape than the node declares. *)
Theorem X3_reshape_declared_shape {A : Type} `{Scalar A}
    (r : ReshapeFeaturesOperation.t A) (a b : ndarray A) :
  nd_wf a ->
  ReshapeFeaturesOperation.perform r a = Ok b ->
  (nd_shape b = ReshapeFeaturesOperation.shape r <->
   valid_shape (ReshapeFeaturesOperation.shape r) = true).
Proof.
  intros [Hvalid _] Hperform.
  apply (np_reshape_Ok_inv a b _ Hvalid Hperform).
Qed.

Lemma X3_witness :
  let a : ndarray float :=
    {| nd_shape := [2; 6]; nd_data := replicate 12 1%float |} in
  let r : ReshapeFeaturesOperation.t float :=
    {| ReshapeFeaturesOperation.inputA :=
         {| op_shape := [2; 6]; op_result := None |};
       ReshapeFeaturesOperation.exampleShape := ShapeTuple [3; -1];
       ReshapeFeaturesOperation.nExamples := 2;
       ReshapeFeaturesOperation.shape := [2; 3; -1];
       ReshapeFeaturesOperation.endNode := true;
       ReshapeFeaturesOperation.outputs := [] |} in
  ReshapeFeaturesOperation.setShape r = Ok r /\
  ([2; 3; 2] = ReshapeFeaturesOperation.shape r <->
   valid_shape (ReshapeFeaturesOperation.shape r) = true).
Proof.
  intros a r. split; [reflexivity|].
  apply (X3_reshape_declared_shape r a
           {| nd_shape := [2; 3; 2]; nd_data := replicate 12 1%float |}).
  - split; reflexivity.
  - reflexivity.
Defined.

Section flatten_shape_facts.
Context {A : Type} `{Scalar A}.

(** The shape that [setShape] gives a flattening node is an array shape
    with the element count of the input. *)
Lemma flatten_setShape_size (self self' : FlattenFeaturesOperation.t A) :
  FlattenFeaturesOperation.setShape self = Ok self' ->
  valid_shape (op_shape (FlattenFeaturesOperation.inputA self)) = true ->
  valid_shape (FlattenFeaturesOperation.shape self') = true /\
  prod_shape (FlattenFeaturesOperation.shape self')
  = prod_shape (op_shape (FlattenFeaturesOperation.inputA self)).
Proof.
  intros Hset Hvalid.
  destruct (op_shape (FlattenFeaturesOperation.inputA self))
    as [|n [|d ds]] eqn:Hs.
  - rewrite flatten_setShape_rank_0 in Hset by assumption. discriminate.
  - rewrite (flatten_setShape_rank_1 self n) in Hset by assumption.
    injection Hset as <-. cbn [FlattenFeaturesOperation.shape
      FlattenFeaturesOperation.set_shape].
    apply valid_shape_cons in Hvalid as [Hn _].
    split; [|rewrite !prod_shape_cons; simpl; ring].
    apply valid_shape_cons. split; [lia|].
    apply valid_shape_cons. split; [assumption | reflexivity].
  - rewrite (flatten_setShape_rank_ge_2 self n d ds) in Hset by assumption.
    injection Hset as <-. cbn [FlattenFeaturesOperation.shape
      FlattenFeaturesOperation.set_shape].
    apply valid_shape_cons in Hvalid as [Hn Hrest].
    pose proof (prod_shape_nonneg _ Hrest).
    split; [|rewrite !prod_shape_cons; simpl; ring].
    apply valid_shape_cons. split; [assumption|].
    apply valid_shape_cons. split; [assumption | reflexivity].
Qed.

End flatten_shape_facts.

(** X4. A flattening node keeps the shape computed at construction: on an
    array with the element count of the construction-time input [perform]
    returns the elements under the node's shape, whatever the array's own
    shape, and on any other element count (another batch size) it raises
    [ValueError]. *)
Theorem X4_flatten_perform_fixed_shape {A : Type} `{Scalar A}
    (self self' : FlattenFeaturesOperation.t A) (a : ndarray A) :
  FlattenFeaturesOperation.setShape self = Ok self' ->
  valid_shape (op_shape (FlattenFeaturesOperation.inputA self)) = true ->
  FlattenFeaturesOperation.perform self' a =
    if prod_shape (nd_shape a)
       =? prod_shape (op_shape (FlattenFeaturesOperation.inputA self))
    then Ok {| nd_shape := FlattenFeaturesOperation.shape self';
               nd_data := nd_data a |}
    else Raise ValueError.
Proof.
  intros Hset Hvalid.
  destruct (flatten_setShape_size self self' Hset Hvalid) as [Hv Hp].
  unfold FlattenFeaturesOperation.perform. rewrite <- Hp.
  destruct (Z.eqb_spec (prod_shape (nd_shape a))
              (prod_shape (FlattenFeaturesOperation.shape self'))).
  - apply np_reshape_ok; assumption.
  - apply np_reshape_mismatch; assumption.
Qed.

Lemma X4_witness :
  let inp : Operation float := {| op_shape := [2; 2; 3]; op_result := None |} in
  let self' : FlattenFeaturesOperation.t float :=
    FlattenFeaturesOperation.set_shape (flatten_new inp) 2 [2; 6] in
  FlattenFeaturesOperation.perform self'
    {| nd_shape := [3; 4]; nd_data := replicate 12 1%float |}
  = Ok {| nd_shape := [2; 6]; nd_data := replicate 12 1%float |} /\
  FlattenFeaturesOperation.perform self'
    {| nd_shape := [3; 2; 3]; nd_data := replicate 18 1%float |}
  = Raise ValueError.
Proof.
  intros inp self'. split.
  - apply (X4_flatten_perform_fixed_shape (flatten_new inp) self'
             {| nd_shape := [3; 4]; nd_data := replicate 12 1%float |});
      reflexivity.
  - apply (X4_flatten_perform_fixed_shape (flatten_new inp) self'
             {| nd_shape := [3; 2; 3]; nd_data := replicate 18 1%float |});
      reflexivity.
Defined.

(** ** The forward pass of the slice *)

Section gather_facts.
Context {A : Type} `{Scalar A}.

Lemma read_lookup (d : list A) (o : Z) (x : A) :
  d !! Z.to_nat o = Some x -> read d o = x.
Proof. unfold read. intros ->. reflexivity. Qed.

(** Reading inside the array returns one of its elements. *)
Lemma gather_elements (d : list A) (offs : list Z) :
  Forall (fun o => 0 <= o < Z.of_nat (length d)) offs ->
  Forall (fun x => x ∈ d) (map (read d) offs).
Proof.
  intros Hb. rewrite map_fmap. apply Forall_fmap.
  eapply list.Forall_impl; [exact Hb|]. simpl. intros o Ho.
  destruct (lookup_lt_is_Some_2 d (Z.to_nat o)) as [x Hx]; [lia|].
  rewrite (read_lookup d o x Hx). eapply list_elem_of_lookup_2, Hx.
Qed.

(** Gathering what was scattered gives it back. *)
Lemma gather_scatter (n : nat) (offs : list Z) (vals : list A) :
  NoDup offs ->
  Forall (fun o => 0 <= o < Z.of_nat n) offs ->
  length vals = length offs ->
  map (read (scatter n offs vals)) offs = vals.
Proof.
  intros Hnd Hb Hlen. apply list_eq. intros k.
  rewrite map_fmap, list_lookup_fmap.
  destruct (offs !! k) as [o|] eqn:Hk.
  - destruct (lookup_lt_is_Some_2 vals k) as [v Hv].
    { rewrite Hlen. eapply lookup_lt_Some, Hk. }
    cbn [fmap option_fmap option_map]. rewrite Hv. f_equal.
    apply read_lookup.
    rewrite (scatter_selected n offs vals k o) by assumption. exact Hv.
  - cbn [fmap option_fmap option_map]. symmetry.
    apply lookup_ge_None_2. rewrite Hlen.
    apply lookup_ge_None_1. exact Hk.
Qed.

End gather_facts.

(** X5. Shape inference of the slice is sound: on a well-formed array of
    the input's shape, the forward pass of a slice node whose shape was set
    by [setShape] succeeds, its result has the node's shape and is
    well-formed, and every element of it is an element of the array. *)
Theorem X5_slice_perform_has_declared_shape {A : Type} `{Scalar A}
    (self : SliceOperation.t A) (a : ndarray A) :
  SliceOperation.setShape self = Ok self ->
  nd_wf a ->
  nd_shape a = op_shape (SliceOperation.inputA self) ->
  exists b,
    SliceOperation.perform self a = Ok b /\
    nd_shape b = SliceOperation.shape self /\
    nd_wf b /\
    Forall (fun x => x ∈ nd_data a) (nd_data b).
Proof.
  intros Hset [Hvalid Hlen] Hshape.
  destruct (slice_setShape_fixed self Hset) as (Hin & offs & Hsel).
  destruct (select_spec _ _ _ _ Hin Hsel) as (Hsh & Hoffs & Hnd & Hb).
  eexists. split.
  { unfold SliceOperation.perform, np_getitem. rewrite Hshape, Hsel.
    reflexivity. }
  cbn [nd_shape nd_data]. split; [reflexivity|]. split.
  - split; [exact Hsh|]. cbn [nd_shape nd_data].
    rewrite length_map. exact Hoffs.
  - apply gather_elements. rewrite Hlen, Hshape.
    pose proof (prod_shape_nonneg _ Hin).
    eapply list.Forall_impl; [exact Hb|]. simpl. intros o Ho. lia.
Qed.

Lemma X5_witness :
  exists b,
    SliceOperation.perform example_slice
      {| nd_shape := [2; 2];
         nd_data := [1%float; 2%float; 3%float; 4%float] |} = Ok b /\
    nd_shape b = [2] /\
    nd_wf b /\
    Forall (fun x => x ∈ [1%float; 2%float; 3%float; 4%float]) (nd_data b).
Proof.
  apply (X5_slice_perform_has_declared_shape example_slice
           {| nd_shape := [2; 2];
              nd_data := [1%float; 2%float; 3%float; 4%float] |}).
  - reflexivity.
  - split; reflexivity.
  - reflexivity.
Defined.

(** X6. Backward then forward is the identity: slicing the gradient that a
    slice node returns gives back the accumulated gradient of its
    consumers, so nothing handed back by the consumers is lost or moved by
    the scatter. *)
Theorem X6_slice_gradient_round_trip {A : Type} `{Scalar A}
    (self : SliceOperation.t A) :
  SliceOperation.setShape self = Ok self ->
  SliceOperation.endNode self = false ->
  Forall (shaped (SliceOperation.shape self)) (SliceOperation.outputs self) ->
  exists grad,
    SliceOperation.performGradient self = Ok grad /\
    SliceOperation.perform self grad =
      Ok {| nd_shape := SliceOperation.shape self;
            nd_data :=
              accumulate
                (replicate (Z.to_nat (prod_shape (SliceOperation.shape self)))
                           zero)
                (SliceOperation.outputs self) |}.
Proof.
  intros Hset Hend Houts.
  destruct (slice_setShape_fixed self Hset) as (Hin & offs & Hsel).
  destruct (select_positions _ _ _ _ Hin Hsel) as (Hnd & Hb & Hlen).
  eexists. split.
  { apply (slice_performGradient_ok self (SliceOperation.shape self) offs);
      try assumption. reflexivity. }
  unfold SliceOperation.perform, np_getitem. cbn [nd_shape nd_data].
  rewrite Hsel, bind_Ok. cbn beta iota.
  rewrite gather_scatter; try assumption; [reflexivity|].
  rewrite Hlen. apply accumulate_shaped_length. assumption.
Qed.

Lemma X6_witness :
  exists grad,
    SliceOperation.performGradient example_slice = Ok grad /\
    SliceOperation.perform example_slice grad =
      Ok {| nd_shape := [2];
            nd_data := accumulate (replicate 2 zero) [example_ones] |}.
Proof.
  apply (X6_slice_gradient_round_trip example_slice).
  - reflexivity.
  - reflexivity.
  - repeat constructor.
Defined.

(** ** When the gradient of a reshaping node fails *)

Section misfit_facts.
Context {A : Type} `{Scalar A}.

(** [a += b] on arrays that carry the same shape succeeds. *)
Lemma np_iadd_same_shape_Ok (a b : ndarray A) :
  nd_shape b = nd_shape a ->
  exists d, np_iadd a b = Ok {| nd_shape := nd_shape a; nd_data := d |}.
Proof.
  intros Hs. unfold np_iadd, broadcast_to.
  rewrite Hs, pad_shape_same, broadcastable_refl, Nat.leb_refl.
  eexists. reflexivity.
Qed.

(** The accumulation loop of the reshaping gradients stops with
    [ValueError] at the first gradient of another element count and
    succeeds when there is none. *)
Lemma reshape_loop_outcome (inShape : list Z) (outs : list (Consumer A))
    (acc : ndarray A) :
  valid_shape inShape = true ->
  nd_shape acc = inShape ->
  (Forall (fun out => prod_shape (nd_shape (getGradient out))
                      = prod_shape inShape) outs ->
   exists g,
     for_each (fun grad out =>
                 g ← np_reshape (getGradient out) inShape;
                 np_iadd grad g) outs acc = Ok g /\
     nd_shape g = inShape) /\
  (Exists (fun out => prod_shape (nd_shape (getGradient out))
                      <> prod_shape inShape) outs ->
   for_each (fun grad out =>
               g ← np_reshape (getGradient out) inShape;
               np_iadd grad g) outs acc = Raise ValueError).
Proof.
  intros Hin. revert acc.
  induction outs as [|out outs IH]; intros acc Hacc.
  - split; [intros _; exists acc; auto | intros Hex; inversion Hex].
  - cbn [for_each].
    destruct (decide (prod_shape (nd_shape (getGradient out))
                      = prod_shape inShape)) as [Heq|Hne].
    + rewrite np_reshape_ok, bind_Ok by assumption.
      destruct (np_iadd_same_shape_Ok acc
                  {| nd_shape := inShape; nd_data := nd_data (getGradient out) |})
        as [d Hadd]; [simpl; congruence|].
      rewrite Hadd, bind_Ok.
      destruct (IH {| nd_shape := nd_shape acc; nd_data := d |} Hacc)
        as [IHok IHbad].
      split.
      * intros Hall. apply IHok. inversion Hall; assumption.
      * intros Hex. apply IHbad.
        apply Exists_inv in Hex as [Hhd|Htl]; [contradiction | assumption].
    + rewrite np_reshape_mismatch by assumption.
      split; [|reflexivity].
      intros Hall. inversion Hall; contradiction.
Qed.

End misfit_facts.

(** X7. The gradient of a flattening or reshaping node that is not an end
    node exists exactly when every consumer hands back as many elements as
    the input has: then it has the input's shape, and one consumer with
    another element count makes the whole call raise [ValueError]. *)
Theorem X7_reshaping_gradient_outcome {A : Type} `{Scalar A}
    (f : FlattenFeaturesOperation.t A) (r : ReshapeFeaturesOperation.t A) :
  (FlattenFeaturesOperation.endNode f = false ->
   valid_shape (op_shape (FlattenFeaturesOperation.inputA f)) = true ->
   (Forall (fun out => prod_shape (nd_shape (getGradient out))
                       = prod_shape (op_shape (FlattenFeaturesOperation.inputA f)))
           (FlattenFeaturesOperation.outputs f) ->
    exists g,
      FlattenFeaturesOperation.performGradient f = Ok g /\
      nd_shape g = op_shape (FlattenFeaturesOperation.inputA f)) /\
   (Exists (fun out => prod_shape (nd_shape (getGradient out))
                       <> prod_shape (op_shape (FlattenFeaturesOperation.inputA f)))
           (FlattenFeaturesOperation.outputs f) ->
    FlattenFeaturesOperation.performGradient f = Raise ValueError))
  /\
  (ReshapeFeaturesOperation.endNode r = false ->
   valid_shape (op_shape (ReshapeFeaturesOperation.inputA r)) = true ->
   (Forall (fun out => prod_shape (nd_shape (getGradient out))
                       = prod_shape (op_shape (ReshapeFeaturesOperation.inputA r)))
           (ReshapeFeaturesOperation.outputs r) ->
    exists g,
      ReshapeFeaturesOperation.performGradient r = Ok g /\
      nd_shape g = op_shape (ReshapeFeaturesOperation.inputA r)) /\
   (Exists (fun out => prod_shape (nd_shape (getGradient out))
                       <> prod_shape (op_shape (ReshapeFeaturesOperation.inputA r)))
           (ReshapeFeaturesOperation.outputs r) ->
    ReshapeFeaturesOperation.performGradient r = Raise ValueError)).
Proof.
  split; intros Hend Hin.
  - unfold FlattenFeaturesOperation.performGradient, np_zeros.
    rewrite Hend, np_full_ok, bind_Ok by assumption.
    apply reshape_loop_outcome; [assumption | reflexivity].
  - unfold ReshapeFeaturesOperation.performGradient, np_zeros.
    rewrite Hend, np_full_ok, bind_Ok by assumption.
    apply reshape_loop_outcome; [assumption | reflexivity].
Qed.

Lemma X7_witness :
  let node outs : FlattenFeaturesOperation.t float :=
    {| FlattenFeaturesOperation.inputA := example_input;
       FlattenFeaturesOperation.nExamples := 2;
       FlattenFeaturesOperation.shape := [2; 2];
       FlattenFeaturesOperation.endNode := false;
       FlattenFeaturesOperation.outputs := outs |} in
  let four : Consumer float :=
    {| getGradient := {| nd_shape := [4]; nd_data := replicate 4 1%float |} |} in
  (exists g,
     FlattenFeaturesOperation.performGradient (node [four; four]) = Ok g /\
     nd_shape g = [2; 2]) /\
  FlattenFeaturesOperation.performGradient (node [four; example_ones; four])
  = Raise ValueError.
Proof.
  intros node four. split.
  - destruct (X7_reshaping_gradient_outcome
                (node [four; four]) (reshape_new example_input (ShapeTuple [])))
      as [Hf _].
    destruct (Hf eq_refl eq_refl) as [Hok _].
    apply Hok. repeat constructor.
  - destruct (X7_reshaping_gradient_outcome
                (node [four; example_ones; four])
                (reshape_new example_input (ShapeTuple [])))
      as [Hf _].
    destruct (Hf eq_refl eq_refl) as [_ Hbad].
    apply Hbad. apply Exists_cons_tl, Exists_cons_hd. discriminate.
Defined.

(** ** The one input that [FlattenFeaturesOperation.setShape] refuses *)

(** X8. [FlattenFeaturesOperation.setShape] fails on exactly one kind of
    input: an operation without dimension, of shape (), for which the else
    branch reads [shape[0]] of the empty tuple and raises [IndexError].  On
    every input with at least one dimension it succeeds, and the shape it
    sets has two dimensions. *)
Theorem X8_flatten_setShape_fails_without_dimension {A : Type} `{Scalar A}
    (f : FlattenFeaturesOperation.t A) :
  (op_shape (FlattenFeaturesOperation.inputA f) = [] <->
   FlattenFeaturesOperation.setShape f = Raise IndexError) /\
  (op_shape (FlattenFeaturesOperation.inputA f) <> [] <->
   exists f',
     FlattenFeaturesOperation.setShape f = Ok f' /\
     length (FlattenFeaturesOperation.shape f') = 2%nat).
Proof.
  destruct (op_shape (FlattenFeaturesOperation.inputA f))
    as [|n [|d ds]] eqn:Hs.
  - rewrite flatten_setShape_rank_0 by assumption.
    split; [tauto|]. split; [congruence|].
    intros (f' & Hset & _). discriminate.
  - rewrite (flatten_setShape_rank_1 f n) by assumption.
    split; [split; discriminate|]. split; [|discriminate].
    intros _. eexists. split; reflexivity.
  - rewrite (flatten_setShape_rank_ge_2 f n d ds) by assumption.
    split; [split; discriminate|]. split; [|discriminate].
    intros _. eexists. split; reflexivity.
Qed.

Lemma X8_witness :
  FlattenFeaturesOperation.setShape
    (flatten_new (A:=float) {| op_shape := []; op_result := None |})
  = Raise IndexError /\
  exists f',
    FlattenFeaturesOperation.setShape
      (flatten_new (A:=float) {| op_shape := [3]; op_result := None |})
    = Ok f' /\
    length (FlattenFeaturesOperation.shape f') = 2%nat.
Proof.
  split.
  - apply (X8_flatten_setShape_fails_without_dimension
             (flatten_new (A:=float) {| op_shape := []; op_result := None |})).
    reflexivity.
  - apply (X8_flatten_setShape_fails_without_dimension
             (flatten_new (A:=float) {| op_shape := [3]; op_result := None |})).
    discriminate.
Defined.

(** ** A gradient without dimension *)

Section scalar_facts.
Context {A : Type} `{Scalar A}.

Lemma join_replicate_replicate (k m : nat) (x : A) :
  mjoin (replicate k (replicate m x)) = replicate (k * m) x.
Proof.
  induction k as [|k IH]; [reflexivity|].
  change (mjoin (replicate (S k) (replicate m x)))
    with (replicate m x ++ mjoin (replicate k (replicate m x))).
  rewrite IH, <- replicate_add. reflexivity.
Qed.

Lemma join_singleton (l : list A) : mjoin [l] = l.
Proof. apply app_nil_r. Qed.

Lemma prod_shape_ones (n : nat) : prod_shape (replicate n 1) = 1.
Proof. induction n as [|n IH]; [reflexivity|]. simpl in *. rewrite IH. reflexivity. Qed.

Lemma broadcastable_ones (tgt : list Z) :
  broadcastable tgt (replicate (length tgt) 1) = true.
Proof.
  induction tgt as [|t ts IH]; [reflexivity|].
  simpl. rewrite IH, orb_true_r. reflexivity.
Qed.

Lemma broadcast_data_ones (tgt : list Z) (x : A) :
  valid_shape tgt = true ->
  broadcast_data tgt (replicate (length tgt) 1) [x]
  = replicate (Z.to_nat (prod_shape tgt)) x.
Proof.
  induction tgt as [|t ts IH]; intros Hv; [reflexivity|].
  apply valid_shape_cons in Hv as [Ht Hts].
  cbn [length replicate broadcast_data].
  rewrite prod_shape_to_nat by assumption.
  destruct (Z.eqb_spec 1 t) as [<-|Hne].
  - rewrite prod_shape_ones. change (Z.to_nat 1) with 1%nat.
    cbn [chunks take map]. rewrite join_singleton, IH by assumption.
    rewrite Nat.mul_1_l. reflexivity.
  - rewrite IH by assumption. apply join_replicate_replicate.
Qed.

(** A 0-d array is broadcast to every position of the target. *)
Lemma broadcast_to_scalar (tgt : list Z) (x : A) :
  valid_shape tgt = true ->
  broadcast_to tgt {| nd_shape := []; nd_data := [x] |}
  = Ok (replicate (Z.to_nat (prod_shape tgt)) x).
Proof.
  intros Hv. unfold broadcast_to, pad_shape. cbn [nd_shape nd_data length].
  rewrite Nat.sub_0_r, app_nil_r, broadcastable_ones. cbn [Nat.leb andb].
  rewrite broadcast_data_ones by assumption. reflexivity.
Qed.

End scalar_facts.

(** X9. A slice node accepts a consumer whose gradient is a 0-d array: the
    value is broadcast by [+=], so every selected position of the input
    gradient receives [0 + x] and every other position is zero. *)
Theorem X9_slice_broadcasts_scalar_gradient {A : Type} `{Scalar A}
    (self : SliceOperation.t A) (out : Consumer A) (x : A) :
  SliceOperation.setShape self = Ok self ->
  SliceOperation.endNode self = false ->
  SliceOperation.outputs self = [out] ->
  getGradient out = {| nd_shape := []; nd_data := [x] |} ->
  exists offs,
    select (op_shape (SliceOperation.inputA self))
           (SliceOperation.indexExp self)
    = Ok (SliceOperation.shape self, offs) /\
    SliceOperation.performGradient self =
      Ok {| nd_shape := op_shape (SliceOperation.inputA self);
            nd_data :=
              scatter
                (Z.to_nat (prod_shape (op_shape (SliceOperation.inputA self))))
                offs (replicate (length offs) (add zero x)) |}.
Proof.
  intros Hset Hend Houts Hgrad.
  destruct (slice_setShape_fixed self Hset) as (Hin & offs & Hsel).
  destruct (select_spec _ _ _ _ Hin Hsel) as (Hsh & Hlen & _ & _).
  exists offs. split; [exact Hsel|].
  unfold SliceOperation.performGradient, np_zeros.
  rewrite Hend, Houts, (np_full_ok zero (SliceOperation.shape self)), bind_Ok
    by assumption.
  cbn [for_each]. unfold np_iadd. cbn [nd_shape nd_data].
  rewrite Hgrad, broadcast_to_scalar, !bind_Ok by assumption.
  rewrite zip_with_replicate.
  rewrite (np_full_ok zero (op_shape (SliceOperation.inputA self))), bind_Ok
    by assumption.
  rewrite (np_setitem_same _ _ _ (SliceOperation.shape self) offs);
    [|exact Hsel |split; [exact Hsh | apply length_replicate] |reflexivity].
  cbn [nd_data nd_shape]. rewrite <- Hlen. reflexivity.
Qed.

Lemma X9_witness :
  let self : SliceOperation.t float :=
    {| SliceOperation.inputA := example_input;
       SliceOperation.indexExp := example_index;
       SliceOperation.shape := [2];
       SliceOperation.endNode := false;
       SliceOperation.outputs :=
         [{| getGradient := {| nd_shape := []; nd_data := [3%float] |} |}] |} in
  exists offs,
    select [2; 2] example_index = Ok ([2], offs) /\
    SliceOperation.performGradient self =
      Ok {| nd_shape := [2; 2];
            nd_data := scatter 4 offs (replicate (length offs) (add zero 3%float)) |}.
Proof.
  intros self.
  apply (X9_slice_broadcasts_scalar_gradient self
           {| getGradient := {| nd_shape := []; nd_data := [3%float] |} |}
           3%float); reflexivity.
Defined.

(** ** Reshape then flatten *)

(** X10. Reshaping a two-dimensional array of shape (n, f) with a tuple
    [exampleShape] of non-negative dimensions and flattening the result
    gives back the array exactly when the dimensions of [exampleShape]
    multiply to [f] and, for the empty [exampleShape], [n] is 1. *)
Theorem X10_reshape_then_flatten_identity {A : Type} `{Scalar A}
    (a : ndarray A) (n f : Z) (es : list Z) :
  nd_wf a ->
  nd_shape a = [n; f] ->
  valid_shape es = true ->
  reshape_then_flatten a (ShapeTuple es) = Ok a <->
  prod_shape es = f /\ (es = [] -> n = 1).
Proof.
  intros [Hvalid _] Hshape Hes. destruct a as [s data].
  cbn [nd_shape] in Hvalid, Hshape. subst s.
  apply valid_shape_cons in Hvalid as [Hn Hf'].
  apply valid_shape_cons in Hf' as [Hf _].
  pose proof (prod_shape_nonneg _ Hes) as Hp.
  unfold reshape_then_flatten. cbn [nd_shape].
  rewrite (reshape_setShape_tuple _ es) by reflexivity.
  cbn [reshape_new ReshapeFeaturesOperation.inputA op_shape]. cbv zeta.
  rewrite bind_Ok.
  unfold ReshapeFeaturesOperation.perform, FlattenFeaturesOperation.perform.
  cbn [ReshapeFeaturesOperation.shape ReshapeFeaturesOperation.set_shape].
  assert (valid_shape (n :: es) = true) as Hnes
    by (apply valid_shape_cons; auto).
  destruct es as [|d ds].
  - (* the empty per-example shape *)
    rewrite (flatten_setShape_rank_1 _ n) by reflexivity. rewrite bind_Ok.
    cbn [FlattenFeaturesOperation.shape FlattenFeaturesOperation.set_shape].
    destruct (decide (prod_shape [n; f] = prod_shape [n])) as [Heq|Hne].
    + rewrite np_reshape_ok, bind_Ok by assumption.
      rewrite np_reshape_ok.
      * split.
        -- intros Hback. injection Hback as H1 H2. subst.
           split; [reflexivity | auto].
        -- intros [<- Hone]. rewrite Hone by reflexivity. reflexivity.
      * apply valid_shape_cons. split; [lia | assumption].
      * cbn [nd_shape]. rewrite !prod_shape_cons. simpl. ring.
    + rewrite np_reshape_mismatch by assumption. rewrite bind_Raise.
      split; [discriminate|]. intros [<- Hone]. exfalso. apply Hne.
      rewrite Hone by reflexivity. reflexivity.
  - rewrite (flatten_setShape_rank_ge_2 _ n d ds) by reflexivity.
    rewrite bind_Ok.
    cbn [FlattenFeaturesOperation.shape FlattenFeaturesOperation.set_shape].
    destruct (decide (prod_shape [n; f] = prod_shape (n :: d :: ds)))
      as [Heq|Hne].
    + rewrite np_reshape_ok, bind_Ok by assumption.
      rewrite np_reshape_ok.
      * split.
        -- intros Hback. injection Hback as H1. subst.
           split; [reflexivity | discriminate].
        -- intros [<- _]. reflexivity.
      * apply valid_shape_cons. split; [assumption|].
        apply valid_shape_cons. split; [assumption | reflexivity].
      * cbn [nd_shape]. rewrite !prod_shape_cons. simpl. ring.
    + rewrite np_reshape_mismatch by assumption. rewrite bind_Raise.
      split; [discriminate|]. intros [<- _]. exfalso. apply Hne.
      rewrite !prod_shape_cons. simpl. ring.
Qed.

Lemma X10_witness :
  reshape_then_flatten
    {| nd_shape := [2; 6]; nd_data := replicate 12 1%float |}
    (ShapeTuple [2; 3])
  = Ok {| nd_shape := [2; 6]; nd_data := replicate 12 1%float |}.
Proof.
  apply (X10_reshape_then_flatten_identity
           {| nd_shape := [2; 6]; nd_data := replicate 12 1%float |}
           2 6 [2; 3]).
  - split; reflexivity.
  - reflexivity.
  - reflexivity.
  - split; [reflexivity | discriminate].
Defined.

(** ** The order of the consumers *)

(** In binary64 two terms added to zero can be added in either order. *)
Lemma float64_add_seed_swap (x y : float) :
  PrimFloat.add (PrimFloat.add 0%float x) y
  = PrimFloat.add (PrimFloat.add 0%float y) x.
Proof.
  apply Prim2SF_inj. rewrite !add_spec.
  change (Prim2SF 0%float) with (S754_zero false).
  destruct (Prim2SF x) as [sx|sx| |sx mx ex], (Prim2SF y) as [sy|sy| |sy my ey];
    try reflexivity;
    try (destruct sx; reflexivity);
    try (destruct sy; reflexivity);
    try (destruct sx, sy; reflexivity).
  unfold SF64add. cbn [SFadd].
  rewrite (Z.min_comm ey ex).
  rewrite (Z.add_comm (cond_Zopp sy _)). reflexivity.
Qed.

(** The running sum over two float64 consumers, started from zeros, does
    not depend on which of the two is visited first. *)
Lemma accumulate_two_swap (n : nat) (c1 c2 : Consumer float) :
  accumulate (replicate n zero) [c1; c2]
  = accumulate (replicate n zero) [c2; c1].
Proof.
  unfold accumulate. cbn [foldl].
  generalize (nd_data (getGradient c1)) (nd_data (getGradient c2)).
  induction n as [|n IH]; intros x y; [reflexivity|].
  destruct x as [|x0 x], y as [|y0 y]; try reflexivity.
  cbn [replicate zip_with]. rewrite IH. f_equal.
  apply float64_add_seed_swap.
Qed.

(** X11. The order of the consumers in float64, where all NaNs are one
    value.  The gradient of a node with two consumers does not depend on
    which of the two comes first in [outputs], for the three operations.
    With three consumers it does: a node whose consumers hand back 2^53, 1
    and 1 returns 2^53, and the same node with the consumers in the reverse
    order returns 2^53 + 2. *)
Theorem X11_consumer_order_in_float64 :
  (forall (inp : Operation float) (es : shape_arg) (idx : list index) (n : Z)
          (sh : list Z) (c1 c2 : Consumer float),
     valid_shape (op_shape inp) = true ->
     (fits (op_shape inp) c1 -> fits (op_shape inp) c2 ->
      FlattenFeaturesOperation.performGradient
        {| FlattenFeaturesOperation.inputA := inp;
           FlattenFeaturesOperation.nExamples := n;
           FlattenFeaturesOperation.shape := sh;
           FlattenFeaturesOperation.endNode := false;
           FlattenFeaturesOperation.outputs := [c1; c2] |}
      = FlattenFeaturesOperation.performGradient
          {| FlattenFeaturesOperation.inputA := inp;
             FlattenFeaturesOperation.nExamples := n;
             FlattenFeaturesOperation.shape := sh;
             FlattenFeaturesOperation.endNode := false;
             FlattenFeaturesOperation.outputs := [c2; c1] |}) /\
     (fits (op_shape inp) c1 -> fits (op_shape inp) c2 ->
      ReshapeFeaturesOperation.performGradient
        {| ReshapeFeaturesOperation.inputA := inp;
           ReshapeFeaturesOperation.exampleShape := es;
           ReshapeFeaturesOperation.nExamples := n;
           ReshapeFeaturesOperation.shape := sh;
           ReshapeFeaturesOperation.endNode := false;
           ReshapeFeaturesOperation.outputs := [c1; c2] |}
      = ReshapeFeaturesOperation.performGradient
          {| ReshapeFeaturesOperation.inputA := inp;
             ReshapeFeaturesOperation.exampleShape := es;
             ReshapeFeaturesOperation.nExamples := n;
             ReshapeFeaturesOperation.shape := sh;
             ReshapeFeaturesOperation.endNode := false;
             ReshapeFeaturesOperation.outputs := [c2; c1] |}) /\
     (shaped sh c1 -> shaped sh c2 ->
      forall offs, select (op_shape inp) idx = Ok (sh, offs) ->
      SliceOperation.performGradient
        {| SliceOperation.inputA := inp;
           SliceOperation.indexExp := idx;
           SliceOperation.shape := sh;
           SliceOperation.endNode := false;
           SliceOperation.outputs := [c1; c2] |}
      = SliceOperation.performGradient
          {| SliceOperation.inputA := inp;
             SliceOperation.indexExp := idx;
             SliceOperation.shape := sh;
             SliceOperation.endNode := false;
             SliceOperation.outputs := [c2; c1] |})) /\
  (let c (v : float) : Consumer float :=
     {| getGradient := {| nd_shape := [1]; nd_data := [v] |} |} in
   let node (outs : list (Consumer float)) : FlattenFeaturesOperation.t float :=
     {| FlattenFeaturesOperation.inputA :=
          {| op_shape := [1]; op_result := None |};
        FlattenFeaturesOperation.nExamples := 1;
        FlattenFeaturesOperation.shape := [1; 1];
        FlattenFeaturesOperation.endNode := false;
        FlattenFeaturesOperation.outputs := outs |} in
   FlattenFeaturesOperation.performGradient
     (node [c 9007199254740992%float; c 1%float; c 1%float])
   = Ok {| nd_shape := [1]; nd_data := [9007199254740992%float] |} /\
   FlattenFeaturesOperation.performGradient
     (node [c 1%float; c 1%float; c 9007199254740992%float])
   = Ok {| nd_shape := [1]; nd_data := [9007199254740994%float] |} /\
   FlattenFeaturesOperation.performGradient
     (node [c 9007199254740992%float; c 1%float; c 1%float])
   <> FlattenFeaturesOperation.performGradient
        (node [c 1%float; c 1%float; c 9007199254740992%float])).
Proof.
  split.
  - intros inp es idx n sh c1 c2 Hin. split; [|split].
    + intros H1 H2.
      rewrite !flatten_performGradient_sum
        by (reflexivity || assumption
            || (repeat first [apply List.Forall_nil
                             | apply List.Forall_cons; [assumption|]])).
      cbn [FlattenFeaturesOperation.inputA FlattenFeaturesOperation.outputs].
      rewrite accumulate_two_swap. reflexivity.
    + intros H1 H2.
      rewrite !reshape_performGradient_sum
        by (reflexivity || assumption
            || (repeat first [apply List.Forall_nil
                             | apply List.Forall_cons; [assumption|]])).
      cbn [ReshapeFeaturesOperation.inputA ReshapeFeaturesOperation.outputs].
      rewrite accumulate_two_swap. reflexivity.
    + intros H1 H2 offs Hsel.
      rewrite !(slice_performGradient_ok _ sh offs)
        by (reflexivity || assumption
            || (repeat first [apply List.Forall_nil
                             | apply List.Forall_cons; [assumption|]])).
      cbn [SliceOperation.inputA SliceOperation.outputs].
      rewrite accumulate_two_swap. reflexivity.
  - cbv zeta. split; [vm_compute; reflexivity|].
    split; [vm_compute; reflexivity|].
    vm_compute. discriminate.
Qed.

Lemma X11_witness :
  let c1 : Consumer float :=
    {| getGradient := {| nd_shape := [2]; nd_data := [1%float; 2%float] |} |} in
  let c2 : Consumer float :=
    {| getGradient := {| nd_shape := [2]; nd_data := [0.5%float; 0.25%float] |} |} in
  let inp : Operation float := {| op_shape := [2; 2]; op_result := None |} in
  SliceOperation.performGradient
    {| SliceOperation.inputA := inp;
       SliceOperation.indexExp := example_index;
       SliceOperation.shape := [2];
       SliceOperation.endNode := false;
       SliceOperation.outputs := [c1; c2] |}
  = SliceOperation.performGradient
      {| SliceOperation.inputA := inp;
         SliceOperation.indexExp := example_index;
         SliceOperation.shape := [2];
         SliceOperation.endNode := false;
         SliceOperation.outputs := [c2; c1] |}.
Proof.
  intros c1 c2 inp.
  destruct X11_consumer_order_in_float64 as [Hswap _].
  destruct (Hswap inp (ShapeTuple []) example_index 0 [2] c1 c2 eq_refl)
    as (_ & _ & Hslice).
  apply (Hslice ltac:(repeat split) ltac:(repeat split) [0; 1]).
  reflexivity.
Defined.

(** ** The index expression that selects everything *)

Lemma all_positions_length (n : nat) : length (all_positions n) = n.
Proof. unfold all_positions. rewrite length_map. apply length_seq. Qed.

Lemma all_positions_lookup (n k : nat) :
  (k < n)%nat -> all_positions n !! k = Some (Z.of_nat k).
Proof.
  intros Hk. unfold all_positions. rewrite map_fmap, list_lookup_fmap.
  rewrite lookup_seq_lt by assumption. reflexivity.
Qed.

Lemma all_positions_S (n : nat) :
  all_positions (S n) = all_positions n ++ [Z.of_nat n].
Proof.
  unfold all_positions. rewrite seq_S, List.map_app. reflexivity.
Qed.

Lemma all_positions_add (n m : nat) :
  all_positions (n + m)
  = all_positions n ++ map (fun o => Z.of_nat n + o) (all_positions m).
Proof.
  unfold all_positions. rewrite seq_app, List.map_app. f_equal.
  cbn [Nat.add].
  assert (seq n m = map (Nat.add n) (seq 0 m)) as ->
    by (rewrite map_fmap, fmap_add_seq, Nat.add_0_r; reflexivity).
  rewrite !List.map_map. apply List.map_ext. intros k. lia.
Qed.

(** One block of [p] positions per index of the axis, in order, are the
    positions of the whole array. *)
Lemma blocks_all_positions (d p : nat) :
  flat_map (fun i => map (fun o => i * Z.of_nat p + o) (all_positions p))
           (all_positions d)
  = all_positions (d * p).
Proof.
  induction d as [|d IH]; [reflexivity|].
  rewrite all_positions_S, flat_map_app, IH. cbn [flat_map].
  rewrite app_nil_r.
  replace (S d * p)%nat with (d * p + p)%nat by lia.
  rewrite all_positions_add. f_equal.
  apply List.map_ext. intros o. lia.
Qed.

Lemma slice_indices_full (d : Z) :
  0 <= d ->
  slice_indices None None None d = Ok (all_positions (Z.to_nat d)).
Proof.
  intros Hd. unfold slice_indices, all_positions. cbn [default].
  change (1 =? 0) with false. change (1 <? 0) with false. cbv iota.
  f_equal. destruct (Z.ltb_spec 0 d) as [Hpos|Hzero].
  - rewrite Z.div_1_r.
    replace (Z.to_nat (d - 0 - 1 + 1)) with (Z.to_nat d) by lia.
    apply List.map_ext. intros k. lia.
  - replace d with 0 by lia. reflexivity.
Qed.

Lemma index_view_full (dims : list Z) :
  valid_shape dims = true ->
  index_view dims (replicate (length dims) full_slice)
  = Ok (dims, all_positions (Z.to_nat (prod_shape dims))).
Proof.
  induction dims as [|d ds IH]; intros Hv; [reflexivity|].
  apply valid_shape_cons in Hv as [Hd Hds].
  pose proof (prod_shape_nonneg _ Hds) as Hp.
  cbn [length replicate]. unfold full_slice at 1. cbn [index_view].
  rewrite slice_indices_full, bind_Ok by assumption.
  rewrite IH, bind_Ok by assumption. cbn beta iota.
  rewrite all_positions_length, Z2Nat.id by assumption.
  rewrite prod_shape_to_nat by assumption.
  rewrite <- blocks_all_positions, Z2Nat.id by assumption. reflexivity.
Qed.

(** [a[...]] and [a[()]] select the whole array, in order. *)
Lemma select_everything (dims : list Z) (idx : list index) :
  idx = [Ellipsis] \/ idx = [] ->
  valid_shape dims = true ->
  select dims idx = Ok (dims, all_positions (Z.to_nat (prod_shape dims))).
Proof.
  intros [-> | ->] Hv; unfold select, expand_index;
    cbn [List.filter is_ellipsis consumes_axis length Nat.ltb Nat.leb
         Nat.eqb flat_map app];
    rewrite Nat.sub_0_r, ?app_nil_r, bind_Ok;
    apply index_view_full; assumption.
Qed.

Section everything_facts.
Context {A : Type} `{Scalar A}.

Lemma gather_everything (d : list A) :
  map (read d) (all_positions (length d)) = d.
Proof.
  apply list_eq. intros k. rewrite map_fmap, list_lookup_fmap.
  destruct (decide (k < length d)%nat) as [Hk|Hk].
  - rewrite all_positions_lookup by assumption.
    destruct (lookup_lt_is_Some_2 d k Hk) as [x Hx].
    cbn [fmap option_fmap option_map]. rewrite Hx. f_equal.
    apply read_lookup. rewrite Nat2Z.id. exact Hx.
  - rewrite (lookup_ge_None_2 (all_positions _))
      by (rewrite all_positions_length; lia).
    rewrite lookup_ge_None_2 by lia. reflexivity.
Qed.

End everything_facts.

(** X12. With the index expression [...] or the empty tuple a slice node is
    the identity in both directions: its shape is the input's shape, the
    forward pass returns the array it is given, and the backward pass
    returns the accumulated gradient of the consumers as it is. *)
Theorem X12_slice_of_everything {A : Type} `{Scalar A}
    (self : SliceOperation.t A) :
  SliceOperation.indexExp self = [Ellipsis] \/
  SliceOperation.indexExp self = [] ->
  valid_shape (op_shape (SliceOperation.inputA self)) = true ->
  SliceOperation.shape <$> SliceOperation.setShape self
  = Ok (op_shape (SliceOperation.inputA self)) /\
  (forall a : ndarray A,
     nd_wf a ->
     nd_shape a = op_shape (SliceOperation.inputA self) ->
     SliceOperation.perform self a = Ok a) /\
  (SliceOperation.endNode self = false ->
   SliceOperation.shape self = op_shape (SliceOperation.inputA self) ->
   Forall (shaped (SliceOperation.shape self)) (SliceOperation.outputs self) ->
   SliceOperation.performGradient self =
     Ok {| nd_shape := op_shape (SliceOperation.inputA self);
           nd_data :=
             accumulate
               (replicate
                  (Z.to_nat (prod_shape (op_shape (SliceOperation.inputA self))))
                  zero)
               (SliceOperation.outputs self) |}).
Proof.
  intros Hidx Hin.
  pose proof (select_everything _ _ Hidx Hin) as Hsel.
  split; [|split].
  - rewrite slice_setShape_shape, Hin, Hsel. reflexivity.
  - intros [s d] [_ Hlen] Hshape. cbn [nd_shape nd_data] in *. subst s.
    unfold SliceOperation.perform, np_getitem. cbn [nd_shape nd_data].
    rewrite Hsel, bind_Ok. cbn beta iota.
    rewrite <- Hlen, gather_everything. reflexivity.
  - intros Hend Hshape Houts.
    destruct (select_positions _ _ _ _ Hin Hsel) as (Hnd & Hb & _).
    rewrite (slice_performGradient_ok self
               (op_shape (SliceOperation.inputA self))
               (all_positions
                  (Z.to_nat (prod_shape (op_shape (SliceOperation.inputA self))))))
      by (assumption || congruence).
    f_equal. f_equal.
    pose proof (accumulate_shaped_length _ _ Houts) as Hacc.
    rewrite Hshape in Hacc.
    set (acc := accumulate _ _) in *.
    set (n := Z.to_nat (prod_shape (op_shape (SliceOperation.inputA self))))
      in *.
    apply list_eq. intros p.
    destruct (decide (p < n)%nat) as [Hp|Hp].
    + replace p with (Z.to_nat (Z.of_nat p)) at 1 by lia.
      apply scatter_selected; try assumption.
      * rewrite all_positions_length. exact Hacc.
      * apply all_positions_lookup. exact Hp.
    + rewrite !lookup_ge_None_2; [reflexivity | lia |].
      rewrite scatter_length. lia.
Qed.

Lemma X12_witness :
  let out : Consumer float :=
    {| getGradient :=
         {| nd_shape := [2; 2];
            nd_data := [1%float; 2%float; 3%float; 4%float] |} |} in
  let self : SliceOperation.t float :=
    {| SliceOperation.inputA := example_input;
       SliceOperation.indexExp := [Ellipsis];
       SliceOperation.shape := [2; 2];
       SliceOperation.endNode := false;
       SliceOperation.outputs := [out] |} in
  SliceOperation.shape <$> SliceOperation.setShape self = Ok [2; 2] /\
  (forall a : ndarray float,
     nd_wf a -> nd_shape a = [2; 2] -> SliceOperation.perform self a = Ok a) /\
  SliceOperation.performGradient self =
    Ok {| nd_shape := [2; 2];
          nd_data := accumulate (replicate 4 zero) [out] |}.
Proof.
  intros out self.
  destruct (X12_slice_of_everything self) as (Hshape & Hperform & Hgrad).
  - left. reflexivity.
  - reflexivity.
  - split; [exact Hshape|]. split; [exact Hperform|].
    apply Hgrad; [reflexivity | reflexivity |].
    repeat constructor.
Defined.

(** ** Backward, then forward, for the reshaping operations *)

Section backward_forward_facts.
Context {A : Type} `{Scalar A}.

Lemma shaped_fits (sh inShape : list Z) (outs : list (Consumer A)) :
  prod_shape sh = prod_shape inShape ->
  Forall (shaped sh) outs -> Forall (fits inShape) outs.
Proof.
  intros Hp Houts. eapply list.Forall_impl; [exact Houts|].
  intros out [Hwf Hsh]. split; [exact Hwf|]. rewrite Hsh. exact Hp.
Qed.

End backward_forward_facts.

(** X13. For a flattening or reshaping node whose shape is an array shape
    with the element count of its input, and whose consumers hand back
    gradients of the node's shape, the forward pass applied to the gradient
    that the backward pass returns is the accumulated gradient of the
    consumers under the node's shape: backward undoes on gradients exactly
    the reindexing that forward does on values. *)
Theorem X13_reshaping_gradient_round_trip {A : Type} `{Scalar A}
    (f : FlattenFeaturesOperation.t A) (r : ReshapeFeaturesOperation.t A) :
  (FlattenFeaturesOperation.setShape f = Ok f ->
   FlattenFeaturesOperation.endNode f = false ->
   valid_shape (op_shape (FlattenFeaturesOperation.inputA f)) = true ->
   Forall (shaped (FlattenFeaturesOperation.shape f))
          (FlattenFeaturesOperation.outputs f) ->
   exists grad,
     FlattenFeaturesOperation.performGradient f = Ok grad /\
     nd_shape grad = op_shape (FlattenFeaturesOperation.inputA f) /\
     FlattenFeaturesOperation.perform f grad =
       Ok {| nd_shape := FlattenFeaturesOperation.shape f;
             nd_data :=
               accumulate
                 (replicate
                    (Z.to_nat (prod_shape (FlattenFeaturesOperation.shape f)))
                    zero)
                 (FlattenFeaturesOperation.outputs f) |})
  /\
  (ReshapeFeaturesOperation.endNode r = false ->
   valid_shape (op_shape (ReshapeFeaturesOperation.inputA r)) = true ->
   valid_shape (ReshapeFeaturesOperation.shape r) = true ->
   prod_shape (ReshapeFeaturesOperation.shape r)
   = prod_shape (op_shape (ReshapeFeaturesOperation.inputA r)) ->
   Forall (shaped (ReshapeFeaturesOperation.shape r))
          (ReshapeFeaturesOperation.outputs r) ->
   exists grad,
     ReshapeFeaturesOperation.performGradient r = Ok grad /\
     nd_shape grad = op_shape (ReshapeFeaturesOperation.inputA r) /\
     ReshapeFeaturesOperation.perform r grad =
       Ok {| nd_shape := ReshapeFeaturesOperation.shape r;
             nd_data :=
               accumulate
                 (replicate
                    (Z.to_nat (prod_shape (ReshapeFeaturesOperation.shape r)))
                    zero)
                 (ReshapeFeaturesOperation.outputs r) |}).
Proof.
  split.
  - intros Hset Hend Hin Houts.
    destruct (flatten_setShape_size f f Hset Hin) as [Hv Hp].
    eexists. split.
    { apply flatten_performGradient_sum; try assumption.
      eapply shaped_fits; eassumption. }
    cbn [nd_shape]. split; [reflexivity|].
    unfold FlattenFeaturesOperation.perform.
    rewrite np_reshape_ok by (cbn [nd_shape]; congruence).
    cbn [nd_data]. rewrite Hp. reflexivity.
  - intros Hend Hin Hv Hp Houts.
    eexists. split.
    { apply reshape_performGradient_sum; try assumption.
      eapply shaped_fits; eassumption. }
    cbn [nd_shape]. split; [reflexivity|].
    unfold ReshapeFeaturesOperation.perform.
    rewrite np_reshape_ok by (cbn [nd_shape]; congruence).
    cbn [nd_data]. rewrite Hp. reflexivity.
Qed.

Lemma X13_witness :
  let out : Consumer float :=
    {| getGradient :=
         {| nd_shape := [1; 4];
            nd_data := [1%float; 2%float; 3%float; 4%float] |} |} in
  let f : FlattenFeaturesOperation.t float :=
    {| FlattenFeaturesOperation.inputA :=
         {| op_shape := [1; 2; 2]; op_result := None |};
       FlattenFeaturesOperation.nExamples := 1;
       FlattenFeaturesOperation.shape := [1; 4];
       FlattenFeaturesOperation.endNode := false;
       FlattenFeaturesOperation.outputs := [out] |} in
  exists grad,
    FlattenFeaturesOperation.performGradient f = Ok grad /\
    nd_shape grad = [1; 2; 2] /\
    FlattenFeaturesOperation.perform f grad =
      Ok {| nd_shape := [1; 4];
            nd_data := accumulate (replicate 4 zero) [out] |}.
Proof.
  intros out f.
  destruct (X13_reshaping_gradient_round_trip f
              (reshape_new example_input (ShapeTuple []))) as [Hf _].
  apply Hf.
  - reflexivity.
  - reflexivity.
  - reflexivity.
  - repeat constructor.
Defined.

(** ** The rank of a slice *)

Lemma count_fill (p : index -> bool) (k : nat) :
  p full_slice = false ->
  length (List.filter p (replicate k full_slice)) = 0%nat.
Proof.
  intros Hp. induction k as [|k IH]; [reflexivity|].
  cbn [replicate List.filter]. rewrite Hp. exact IH.
Qed.

Lemma count_expand_ellipsis (p : index -> bool) (fill idx : list index) :
  length (List.filter p fill) = 0%nat -> p Ellipsis = false ->
  length (List.filter p
            (flat_map (fun i => if is_ellipsis i then fill else [i]) idx))
  = length (List.filter p idx).
Proof.
  intros Hfill Hell. induction idx as [|i idx IH]; [reflexivity|].
  cbn [flat_map]. rewrite List.filter_app, length_app, IH.
  destruct i as [i|start stop step| |]; cbn [is_ellipsis].
  - cbn [List.filter]. destruct (p (Int i)); reflexivity.
  - cbn [List.filter]. destruct (p (Slice start stop step)); reflexivity.
  - rewrite Hfill. cbn [List.filter]. rewrite Hell. reflexivity.
  - cbn [List.filter]. destruct (p NewAxis); reflexivity.
Qed.

(** Expanding an index expression adds full slices only. *)
Lemma expand_index_counts (p : index -> bool) (ndim : nat)
    (idx full : list index) :
  p full_slice = false -> p Ellipsis = false ->
  expand_index ndim idx = Ok full ->
  length (List.filter p full) = length (List.filter p idx).
Proof.
  intros Hslice Hell. unfold expand_index.
  repeat match goal with |- context [if ?c then _ else _] => destruct c end;
    try discriminate; intros [= <-].
  - rewrite List.filter_app, length_app, count_fill by assumption. lia.
  - apply count_expand_ellipsis; [|assumption].
    apply count_fill. assumption.
Qed.

Lemma index_view_rank (idx : list index) (dims sh offs : list Z) :
  length (List.filter consumes_axis idx) = length dims ->
  index_view dims idx = Ok (sh, offs) ->
  (length sh + length (List.filter is_int idx)
   = length dims + length (List.filter is_newaxis idx))%nat.
Proof.
  revert dims sh offs.
  induction idx as [|i idx IH]; intros dims sh offs Hax Hview.
  - destruct dims; [|discriminate]. injection Hview as <- <-. reflexivity.
  - destruct i as [i|start stop step| |]; cbn [index_view] in Hview;
      cbn [List.filter is_int is_newaxis consumes_axis length] in *.
    + destruct dims as [|d ds]; [discriminate|].
      inv_bind Hview as i' Hi. inv_bind Hview as [sh' offs'] Hrec.
      injection Hview as <- <-. injection Hax as Hax.
      specialize (IH ds sh' offs' Hax Hrec). cbn [length]. lia.
    + destruct dims as [|d ds]; [discriminate|].
      inv_bind Hview as sel Hsel. inv_bind Hview as [sh' offs'] Hrec.
      injection Hview as <- <-. injection Hax as Hax.
      specialize (IH ds sh' offs' Hax Hrec). cbn [length]. lia.
    + apply (IH dims sh offs Hax Hview).
    + inv_bind Hview as [sh' offs'] Hrec. injection Hview as <- <-.
      specialize (IH dims sh' offs' Hax Hrec). cbn [length]. lia.
Qed.

(** X14. The rank that [SliceOperation.setShape] infers: every integer of
    the index expression removes one axis of the input and every [newaxis]
    adds one, slices and [Ellipsis] keep the axes they cover. *)
Theorem X14_slice_setShape_rank {A : Type} `{Scalar A}
    (self self' : SliceOperation.t A) :
  SliceOperation.setShape self = Ok self' ->
  (length (SliceOperation.shape self')
   + length (List.filter is_int (SliceOperation.indexExp self))
   = length (op_shape (SliceOperation.inputA self))
     + length (List.filter is_newaxis (SliceOperation.indexExp self)))%nat.
Proof.
  unfold SliceOperation.setShape. intros Hset.
  inv_bind Hset as testMat Hz. apply np_full_Ok_inv in Hz as [_ ->].
  inv_bind Hset as res Hget. unfold np_getitem, select in Hget.
  cbn [nd_shape] in Hget.
  inv_bind Hget as [sh offs] Hsel. inv_bind Hsel as full Hfull.
  injection Hget as <-. injection Hset as <-.
  cbn [SliceOperation.shape SliceOperation.set_shape nd_shape].
  rewrite <- (expand_index_counts is_int _ _ full eq_refl eq_refl Hfull).
  rewrite <- (expand_index_counts is_newaxis _ _ full eq_refl eq_refl Hfull).
  apply (index_view_rank full _ sh offs); [|exact Hsel].
  eapply expand_index_axes, Hfull.
Qed.

Lemma X14_witness :
  (length [1; 4]
   + length (List.filter is_int [Int 1; NewAxis; Ellipsis])
   = length [3; 4]
     + length (List.filter is_newaxis [Int 1; NewAxis; Ellipsis]))%nat.
Proof.
  apply (X14_slice_setShape_rank
           (slice_new (A:=float) {| op_shape := [3; 4]; op_result := None |}
                      [Int 1; NewAxis; Ellipsis])
           (SliceOperation.set_shape
              (slice_new (A:=float) {| op_shape := [3; 4]; op_result := None |}
                         [Int 1; NewAxis; Ellipsis])
              [1; 4])).
  reflexivity.
Defined.
